(** * A shallow embedding of [server.py], the local preview server

    The server is a [SimpleHTTPRequestHandler] subclass: [do_GET] routes a
    request to an upstream proxy, to a redirect, or to the static file
    handler of the base class; [do_POST] proxies the authentication path;
    [translate_path] maps a request path to a file name under the document
    root or the static-assets directory.

    Python [str] values are modelled as [string] (sequences of 8-bit
    characters: the request line and the headers are decoded as ISO-8859-1
    by [http.server], so one character is one byte there).  Handler methods
    are computations in a small state-and-exception monad over the handler
    object; what the handler sends and what it asks of the upstream is
    recorded, in order, in the handler's [trace]. *)

From Stdlib Require Import Ascii String ZArith NArith DecimalString.
From stdpp Require Import base option list gmap strings.

Local Open Scope Z_scope.

(** ** Python string methods *)

Module PyStr.

(** Characters from their code points. *)
Definition chr (n : nat) : ascii := ascii_of_nat n.

(** The double quote character, [chr 34]. *)
Definition dquote : string := String (chr 34) "".

(** [c in s] for a one-character [c]. *)
Fixpoint contains (c : ascii) (s : string) : bool :=
  match s with
  | "" => false
  | String a s' => if decide (a = c) then true else contains c s'
  end.

(** [s.startswith(p)] *)
Fixpoint startswith (s p : string) {struct p} : bool :=
  match p, s with
  | "", _ => true
  | String _ _, "" => false
  | String a p', String b s' =>
      if decide (a = b) then startswith s' p' else false
  end.

(** [s.startswith(ps)] for a tuple [ps] of prefixes. *)
Definition startswith_any (s : string) (ps : list string) : bool :=
  existsb (startswith s) ps.

(** [s.endswith(p)]: [p] is [s] or a suffix of the tail of [s]. *)
Fixpoint endswith (s p : string) : bool :=
  if decide (s = p) then true
  else match s with
       | "" => false
       | String _ s' => endswith s' p
       end.

(** [s.replace(a, b)] for one-character [a] and [b]. *)
Fixpoint replace (a b : ascii) (s : string) : string :=
  match s with
  | "" => ""
  | String c s' => String (if decide (c = a) then b else c) (replace a b s')
  end.

(** [s.split(sep)] for a one-character [sep]: never the empty list. *)
Fixpoint split (sep : ascii) (s : string) : list string :=
  match s with
  | "" => [""]
  | String a s' =>
      if decide (a = sep) then "" :: split sep s'
      else match split sep s' with
           | w :: ws => String a w :: ws
           | [] => [String a ""]
           end
  end.

(** [s.split(sep, 1)]: cut at the first [sep] only. *)
Fixpoint split1 (sep : ascii) (s : string) : list string :=
  match s with
  | "" => [""]
  | String a s' =>
      if decide (a = sep) then [""; s']
      else match split1 sep s' with
           | w :: ws => String a w :: ws
           | [] => [String a ""]
           end
  end.

(** [s.rsplit(sep, 1)]: cut at the last [sep] only. *)
Fixpoint rsplit1 (sep : ascii) (s : string) : list string :=
  match s with
  | "" => [""]
  | String a s' =>
      match rsplit1 sep s' with
      | [t] => if decide (a = sep) then [""; t] else [String a t]
      | h :: ts => String a h :: ts
      | [] => [String a ""]
      end
  end.

(** [sep.join(ws)] *)
Definition join (sep : string) (ws : list string) : string :=
  String.concat sep ws.

(** [str.isspace] on one character of the Latin-1 range. *)
Definition isspace (c : ascii) : bool :=
  let n := nat_of_ascii c in
  ((9 <=? n) && (n <=? 13) || (28 <=? n) && (n <=? 32)
   || (n =? 133) || (n =? 160))%nat.

(** [s.rstrip()] and [s.lstrip()] with a predicate on the characters to
    strip ([isspace] when called without argument). *)
Fixpoint rstrip_with (strip : ascii → bool) (s : string) : string :=
  match s with
  | "" => ""
  | String a s' =>
      match rstrip_with strip s' with
      | "" => if strip a then "" else String a ""
      | t => String a t
      end
  end.

Fixpoint lstrip_with (strip : ascii → bool) (s : string) : string :=
  match s with
  | "" => ""
  | String a s' => if strip a then lstrip_with strip s' else s
  end.

Definition rstrip (s : string) : string := rstrip_with isspace s.
Definition is_char (c a : ascii) : bool := bool_decide (a = c).

(** [s.lower()] on the Latin-1 range: A-Z and the accented capitals
    0xC0-0xDE (0xD7, the multiplication sign, apart). *)
Definition lower_char (c : ascii) : ascii :=
  let n := nat_of_ascii c in
  if ((65 <=? n) && (n <=? 90)
      || (192 <=? n) && (n <=? 222) && negb (n =? 215))%nat
  then ascii_of_nat (n + 32) else c.

Fixpoint lower (s : string) : string :=
  match s with
  | "" => ""
  | String c s' => String (lower_char c) (lower s')
  end.

(** [s.rfind(c)]: index of the last occurrence, -1 when there is none. *)
Fixpoint rfind (c : ascii) (s : string) : Z :=
  match s with
  | "" => -1
  | String a s' =>
      let r := rfind c s' in
      if decide (r = -1) then (if decide (a = c) then 0 else -1) else r + 1
  end.

(** The slices [s[:i]] and [s[i:]] for [0 <= i], and [s[:-k]]. *)
Definition slice_to (i : Z) (s : string) : string :=
  String.substring 0 (Z.to_nat i) s.
Definition slice_from (i : Z) (s : string) : string :=
  String.substring (Z.to_nat i) (String.length s - Z.to_nat i) s.
Definition slice_to_neg (k : nat) (s : string) : string :=
  String.substring 0 (String.length s - k) s.

(** [str(n)] / ['{}'.format(n)] for a natural number. *)
Definition of_N (n : N) : string := NilZero.string_of_uint (N.to_uint n).

End PyStr.

Import PyStr.

(** ** Exceptions, [int()], and the handler monad *)

(** The exceptions that the code meets.  [TransportError] stands for
    whatever the network makes the client library raise ([OSError],
    [http.client.HTTPException], ...). *)
Inductive exn :=
| TypeError
| ValueError
| IndexError
| AttributeError
| InvalidURL
| TransportError
| OverflowError
| MemoryError
| UnicodeEncodeError.

Inductive result (A : Type) :=
| Returned (a : A)
| Raised (e : exn).
Arguments Returned {A} a.
Arguments Raised {A} e.

(** Decimal digits with single underscores between them, as [int] reads
    them; [seen] tells whether the previous character was a digit. *)
Fixpoint int_digits (acc : Z) (seen : bool) (s : string) : option Z :=
  match s with
  | "" => if seen then Some acc else None
  | String c s' =>
      match Ascii.is_nat c with
      | Some d => int_digits (10 * acc + Z.of_nat d) true s'
      | None =>
          if decide (c = "_"%char) then
            (if seen then int_digits acc false s' else None)
          else None
      end
  end.

(** The white space that [int] skips around a number, on the Latin-1
    range: tab to carriage return, the space, and the two spaces beyond
    ASCII (next line, no-break space).  The separators 0x1C-0x1F, which
    [str.isspace] accepts, are not among them. *)
Definition int_space (c : ascii) : bool :=
  let n := nat_of_ascii c in
  ((9 <=? n) && (n <=? 13) || (n =? 32) || (n =? 133) || (n =? 160))%nat.

(** The number of decimal digits in a string. *)
Fixpoint digit_count (s : string) : nat :=
  match s with
  | "" => 0%nat
  | String c s' =>
      match Ascii.is_nat c with
      | Some _ => S (digit_count s')
      | None => digit_count s'
      end
  end.

(** [sys.get_int_max_str_digits()], as the interpreter starts. *)
Definition int_max_str_digits : nat := 4300.

(** [int(s)] for a [str]: surrounding whitespace, an optional sign, decimal
    digits with single underscores between them, at most
    [int_max_str_digits] digits (leading zeros count); [ValueError]
    otherwise. *)
Definition int_of_str (s : string) : result Z :=
  let t := lstrip_with int_space (rstrip_with int_space s) in
  let d :=
    match t with
    | String "-" d | String "+" d => d
    | _ => t
    end in
  let parsed :=
    match t with
    | String "-" _ => Z.opp <$> int_digits 0 false d
    | _ => int_digits 0 false d
    end in
  match parsed with
  | Some n =>
      if (int_max_str_digits <? digit_count d)%nat then Raised ValueError
      else Returned n
  | None => Raised ValueError
  end.

(** [int(v)] where [v] may be [None]: [int(None)] raises [TypeError]. *)
Definition int (v : option string) : result Z :=
  match v with
  | None => Raised TypeError
  | Some s => int_of_str s
  end.

(** [l[i]] on a list. *)
Definition getitem {A} (l : list A) (i : nat) : result A :=
  match l !! i with
  | Some a => Returned a
  | None => Raised IndexError
  end.

(** ** Headers *)

(** An [email.message.Message]: the header lines in order, names as they
    were spelled on the wire. *)
Definition Message := list (string * string).

(** [msg.get(name)] and [msg[name]]: the first header whose name equals
    [name] ignoring case, [None] when there is none. *)
Fixpoint Message_get (msg : Message) (name : string) : option string :=
  match msg with
  | [] => None
  | (k, v) :: msg' =>
      if decide (lower k = lower name) then Some v else Message_get msg' name
  end.

(** [msg.keys()] *)
Definition Message_keys (msg : Message) : list string := msg.*1.

(** [d.update(msg)]: a [Message] has [keys()], so the dictionary gets
    [d[k] = msg[k]] for each [k] of [msg.keys()], in order.  A dictionary
    value is [Some v] for a [str] and [None] for Python's [None]. *)
Definition dict_update_Message (d : gmap string (option string))
    (msg : Message) : gmap string (option string) :=
  foldl (λ d k, <[k := Message_get msg k]> d) d (Message_keys msg).

(** [d.update({k1: v1, ...})] with the items in order. *)
Definition dict_update (d : gmap string (option string))
    (items : list (string * option string)) : gmap string (option string) :=
  foldl (λ d kv, <[kv.1 := kv.2]> d) d items.

(** ** The upstream client ([http.client]) *)

Inductive ClientClass := HTTPConnection | HTTPSConnection.

(** [cls.__name__] and [cls.default_port] *)
Definition class_name (cls : ClientClass) : string :=
  match cls with
  | HTTPConnection => "HTTPConnection"
  | HTTPSConnection => "HTTPSConnection"
  end.

Definition default_port (cls : ClientClass) : Z :=
  match cls with
  | HTTPConnection => 80
  | HTTPSConnection => 443
  end.

(** A connection object, [Client(host)]. *)
Record client := {
  client_class : ClientClass;
  client_host : string;
  client_port : Z;
}.

(** [HTTPConnection._get_hostport(host, None)] *)
Definition _get_hostport (cls : ClientClass) (host : string) : result (string * Z) :=
  let i := rfind ":" host in
  let j := rfind "]" host in
  let hp :=
    if decide (i > j) then
      match int_of_str (slice_from (i + 1) host) with
      | Returned port => Returned (slice_to i host, port)
      | Raised _ =>
          if decide (slice_from (i + 1) host = "")
          then Returned (slice_to i host, default_port cls)
          else Raised InvalidURL
      end
    else Returned (host, default_port cls) in
  match hp with
  | Returned (host, port) =>
      if bool_decide (host ≠ "") && startswith host "[" && endswith host "]"
      then Returned (String.substring 1 (String.length host - 2) host, port)
      else Returned (host, port)
  | Raised e => Raised e
  end.

(** [http.client._contains_disallowed_url_pchar_re], used by
    [_validate_host] and [_validate_path]: a control character, a space or
    DEL. *)
Fixpoint disallowed_url_pchar (s : string) : bool :=
  match s with
  | "" => false
  | String c s' =>
      let n := nat_of_ascii c in
      ((n <=? 32) || (n =? 127))%nat || disallowed_url_pchar s'
  end.

(** [Client(host)]; a [None] host has no [rfind]. *)
Definition new_client (cls : ClientClass) (host : option string) : result client :=
  match host with
  | None => Raised AttributeError
  | Some host =>
      match _get_hostport cls host with
      | Returned (h, p) =>
          if disallowed_url_pchar h then Raised InvalidURL
          else Returned {| client_class := cls; client_host := h; client_port := p |}
      | Raised e => Raised e
      end
  end.

(** What the upstream sends back: [resp.code], [resp.headers.items()] (in
    order, names as the upstream spelled them, repeated names kept), and
    the body. *)
Record HTTPResponse := {
  code : Z;
  resp_headers : list (string * string);
  resp_body : string;
}.

(** [http.client._contains_disallowed_method_pchar_re]: a control
    character. *)
Fixpoint disallowed_method_pchar (s : string) : bool :=
  match s with
  | "" => false
  | String c s' => (nat_of_ascii c <? 32)%nat || disallowed_method_pchar s'
  end.

(** [s.isascii()] *)
Fixpoint isascii (s : string) : bool :=
  match s with
  | "" => true
  | String c s' => (nat_of_ascii c <? 128)%nat && isascii s'
  end.

(** [HTTPConnection._validate_method], [_validate_path] and
    [_encode_request] *)
Definition _validate_method (method : string) : result unit :=
  if disallowed_method_pchar method then Raised ValueError else Returned tt.

Definition _validate_path (url : string) : result unit :=
  if disallowed_url_pchar url then Raised InvalidURL else Returned tt.

Definition _encode_request (request : string) : result string :=
  if isascii request then Returned request else Raised UnicodeEncodeError.

(** [HTTPConnection.putrequest(method, url)] on a fresh connection, up to
    the request line: the method and the URL are validated and the line is
    encoded, before any header of the request is looked at.  (The Host and
    Accept-Encoding headers that it adds by itself are the library's own.) *)
Definition putrequest (method url : string) : result unit :=
  match _validate_method method with
  | Raised e => Raised e
  | Returned _ =>
      let url := if decide (url = "") then "/" else url in
      match _validate_path url with
      | Raised e => Raised e
      | Returned _ =>
          match _encode_request (method +:+ " " +:+ url +:+ " HTTP/1.1") with
          | Raised e => Raised e
          | Returned _ => Returned tt
          end
      end
  end.

(** What becomes of one outbound request: [client.request] raises (the
    connection cannot be opened, the request cannot be sent),
    [client.getresponse] raises (timeout, bad status line, connection
    closed), or a response arrives. *)
Inductive outcome :=
| request_raises
| getresponse_raises
| responds (resp : HTTPResponse).

(** [http.client._METHODS_EXPECTING_BODY] *)
Definition _METHODS_EXPECTING_BODY : gset string := {["PATCH"; "POST"; "PUT"]}.

(** [urllib.parse.uses_netloc] *)
Definition uses_netloc : list string :=
  [""; "ftp"; "http"; "gopher"; "nntp"; "telnet"; "imap"; "wais"; "file";
   "mms"; "https"; "shttp"; "snews"; "prospero"; "rtsp"; "rtspu"; "rsync";
   "svn"; "svn+ssh"; "sftp"; "nfs"; "git"; "git+ssh"; "ws"; "wss"].

(** [urllib.parse.urlunsplit(components)]: the components are unpacked into
    exactly five names, so any other number of them raises [ValueError]. *)
Definition urlunsplit (components : list string) : result string :=
  match components with
  | [scheme; netloc; url; query; fragment] =>
      let url :=
        if bool_decide (netloc ≠ "")
           || (bool_decide (scheme ≠ "") && bool_decide (scheme ∈ uses_netloc)
               && negb (bool_decide (slice_to 2 url = "//")))
        then
          let url := if bool_decide (url ≠ "") && negb (bool_decide (slice_to 1 url = "/"))
                     then "/" +:+ url else url in
          "//" +:+ netloc +:+ url
        else url in
      let url := if bool_decide (scheme ≠ "") then scheme +:+ ":" +:+ url else url in
      let url := if bool_decide (query ≠ "") then url +:+ "?" +:+ query else url in
      let url := if bool_decide (fragment ≠ "") then url +:+ "#" +:+ fragment else url in
      Returned url
  | _ => Raised ValueError
  end.

(** ** The request handler *)

(** What a handler does that the outside can see, in order: the calls on
    the response side ([send_response], which writes the status line and
    the Server and Date headers of the base class, [send_header],
    [end_headers], [wfile.write], [copyfile]), the calls on the upstream
    connection ([client.request], [client.getresponse]), and the hand-over
    to the base class's static file handler with the file it resolved. *)
Inductive event :=
| send_response_ev (status : Z)
| send_header_ev (keyword value : string)
| end_headers_ev
| wfile_write_ev (data : string)
| copyfile_ev (body : string)
| client_request_ev (c : client) (method url : string)
    (hdrs : gmap string (option string)) (body : option string)
| client_getresponse_ev (c : client)
| serve_file_ev (fspath : string).

(** The handler object: the request it was created for, the unread part
    of the connection's input, and the trace of what it did so far. *)
Record handler := {
  path : string;
  headers : Message;
  client_address : string * N;
  rfile : string;
  trace : list event;
}.

Definition M (A : Type) : Type := handler → handler * result A.

Global Instance M_ret : MRet M := λ A a h, (h, Returned a).
Global Instance M_bind : MBind M := λ A B f m h,
  match m h with
  | (h', Returned a) => f a h'
  | (h', Raised e) => (h', Raised e)
  end.
Global Instance M_throw : MThrow exn M := λ A e h, (h, Raised e).

(** A pure step that may raise. *)
Definition lift {A} (r : result A) : M A := λ h, (h, r).

(** [try: x = m  except: ...  else: ...]: the outcome of [m], caught. *)
Definition try {A} (m : M A) : M (result A) := λ h,
  let '(h', r) := m h in (h', Returned r).

Definition gets {A} (f : handler → A) : M A := λ h, (h, Returned (f h)).

Definition emit (e : event) : M unit := λ h,
  ({| path := path h; headers := headers h; client_address := client_address h;
      rfile := rfile h; trace := trace h ++ [e] |}, Returned tt).

(** [self.path = p] *)
Definition set_path (p : string) : M unit := λ h,
  ({| path := p; headers := headers h; client_address := client_address h;
      rfile := rfile h; trace := trace h |}, Returned tt).

(** [sys.maxsize] and the size of an empty [bytes] object, on a 64-bit
    build of CPython. *)
Definition maxsize : Z := 2 ^ 63 - 1.
Definition PyBytesObject_SIZE : Z := 33.

Definition send_response (status : Z) : M unit := emit (send_response_ev status).
Definition send_header (k v : string) : M unit := emit (send_header_ev k v).
Definition end_headers : M unit := emit end_headers_ev.
Definition wfile_write (data : string) : M unit := emit (wfile_write_ev data).

(** The module-level constants. *)
Definition filetypes : gset string :=
  {[ "html"; "pdf"; "jpg"; "svg"; "png"; "gif"; "css"; "js"; "mustache";
     "json"; "bulk"; "map"; "ttf"; "eot"; "woff"; "woff2" ]}.

Definition AUTH_PATH_PREFIX : string := "/_api/authenticate".
Definition HISTORICAL_VERSIONS_PATH_PREFIXES : list string :=
  ["/_publication"; "/_date"; "/_compare"].
Definition PORTAL_PATH_PREFIXES : list string :=
  ["/_portal"; "/_api"] ++ HISTORICAL_VERSIONS_PATH_PREFIXES.

(** [redirects = {r[0]: r[1] for r in raw_redirects}] *)
Definition load_redirects (raw_redirects : list (string * string)) : gmap string string :=
  foldl (λ d r, <[r.1 := r.2]> d) ∅ raw_redirects.

(** Truth value of [redirects.get(path)]: [None] and [''] are false. *)
Definition truthy (v : option string) : bool :=
  match v with
  | None | Some "" => false
  | Some _ => true
  end.

Global Instance result_ret : MRet result := λ A a, Returned a.
Global Instance result_bind : MBind result := λ A B f r,
  match r with
  | Returned a => f a
  | Raised e => Raised e
  end.

(** ** [posixpath] *)

Module posixpath.

Definition sep : string := "/".
Definition curdir : string := ".".
Definition pardir : string := "..".

(** [s * n] *)
Fixpoint str_mul (s : string) (n : nat) : string :=
  match n with
  | O => ""
  | S n' => s +:+ str_mul s n'
  end.

(** One round of the loop of [join(a, *p)]. *)
Definition join2 (path b : string) : string :=
  if startswith b sep then b
  else if bool_decide (path = "") || endswith path sep then path +:+ b
  else path +:+ sep +:+ b.

Definition join (a : string) (p : list string) : string := foldl join2 a p.

Definition isabs (s : string) : bool := startswith s sep.

(** [dirname(p)] *)
Definition dirname (p : string) : string :=
  let i := rfind "/" p + 1 in
  let head := slice_to i p in
  if bool_decide (head ≠ "") && bool_decide (head ≠ str_mul sep (String.length head))
  then rstrip_with (is_char "/") head
  else head.

(** The body of the loop of [normpath] over the components. *)
Definition normpath_step (initial_slashes : nat) (new_comps : list string)
    (comp : string) : list string :=
  if bool_decide (comp ∈ [""; curdir]) then new_comps
  else if bool_decide (comp ≠ pardir)
          || (bool_decide (initial_slashes = 0%nat) && bool_decide (new_comps = []))
          || (bool_decide (new_comps ≠ []) && bool_decide (last new_comps = Some pardir))
  then new_comps ++ [comp]
  else if bool_decide (new_comps ≠ []) then removelast new_comps
  else new_comps.

Definition normpath (path : string) : string :=
  if decide (path = "") then curdir
  else
    let initial_slashes :=
      if startswith path sep then
        (if startswith path (str_mul sep 2) && negb (startswith path (str_mul sep 3))
         then 2 else 1)%nat
      else 0%nat in
    let comps := split "/" path in
    let comps := foldl (normpath_step initial_slashes) [] comps in
    let path := PyStr.join sep comps in
    let path := if decide (initial_slashes = 0%nat) then path
                else str_mul sep initial_slashes +:+ path in
    if decide (path = "") then curdir else path.

(** [abspath(path)], with the working directory [cwd]. *)
Definition abspath (cwd path : string) : string :=
  if isabs path then normpath path else normpath (join cwd [path]).

(** [len(commonprefix([l1, l2]))]: the two lists are compared element by
    element up to the first difference ([commonprefix] does so on the
    smaller and the larger of the two, which agree on exactly the
    elements the two lists agree on). *)
Fixpoint commonprefix_len (l1 l2 : list string) : nat :=
  match l1, l2 with
  | x :: l1', y :: l2' => if decide (x = y) then S (commonprefix_len l1' l2') else O
  | _, _ => O
  end.

(** [relpath(path, start)] *)
Definition relpath (cwd path start : string) : result string :=
  if decide (path = "") then Raised ValueError
  else
    let start_list := filter (λ x, x ≠ "") (split "/" (abspath cwd start)) in
    let path_list := filter (λ x, x ≠ "") (split "/" (abspath cwd path)) in
    let i := commonprefix_len start_list path_list in
    let rel_list := replicate (length start_list - i) pardir ++ drop i path_list in
    match rel_list with
    | [] => Returned curdir
    | a :: p => Returned (join a p)
    end.

End posixpath.

(** The outbound headers that [_proxy] builds from [self.headers]:
    [req_headers = {}], [req_headers.update(self.headers)],
    [req_headers.pop('Host', None)], and the update with the three
    forwarding headers. *)
Definition req_headers (self_headers : Message) : gmap string (option string) :=
  let req_headers : gmap string (option string) := ∅ in
  let req_headers := dict_update_Message req_headers self_headers in
  let req_headers := delete "Host" req_headers in
  dict_update req_headers
    [("X-Forwarded-For", Some "self.address_string()");
     ("X-Forwarded-Host", Message_get self_headers "Host");
     ("X-Forwarded-Proto", Some "http")].

(** The handler after it did [evs]. *)
Definition record (h : handler) (evs : list event) : handler :=
  {| path := path h; headers := headers h; client_address := client_address h;
     rfile := rfile h; trace := trace h ++ evs |}.

(** The handler with [self.path] set to [p], and with [data] read off
    [self.rfile]. *)
Definition with_path (h : handler) (p : string) : handler :=
  {| path := p; headers := headers h; client_address := client_address h;
     rfile := rfile h; trace := trace h |}.

Definition after_read (h : handler) (data : string) : handler :=
  {| path := path h; headers := headers h; client_address := client_address h;
     rfile := String.substring (String.length data)
                (String.length (rfile h) - String.length data) (rfile h);
     trace := trace h |}.

(** The answer of [_proxy] for a target that is not configured. *)
Definition not_configured_response (upstream_name : string) : list event :=
  [send_response_ev 400; end_headers_ev;
   wfile_write_ev ("Local server not configured to proxy " +:+ upstream_name
     +:+ ". Please run with the " +:+ dquote +:+ "--" +:+ upstream_name
     +:+ "-proxy-url" +:+ dquote +:+ " flag ")].

(** ** The server, over its configuration and its environment *)

Section Server.

(** The directory of [server.py], also the working directory. *)
Variable DIR : string.

(** The file system as [os.path.isdir] and [os.path.exists] see it. *)
Variable isdir : string → bool.
Variable exists_ : string → bool.

(** [urllib.parse.unquote(path, errors='surrogatepass')], [None] when it
    raises [UnicodeDecodeError], and [urllib.parse.unquote(path)].  The
    percent-decoder is a library function; what is proved below holds for
    every decoder. *)
Variable unquote_surrogatepass : string → option string.
Variable unquote : string → string.

(** The upstream targets, as [get_http_client_info] set them. *)
Variable PORTAL_CLIENT_CLASS : option ClientClass.
Variable PORTAL_HOST : option string.
Variable SEARCH_CLIENT_CLASS : option ClientClass.
Variable SEARCH_HOST : option string.

(** [self.server.redirects] and [self.server.socket.getsockname()]. *)
Variable redirects : gmap string string.
Variable sockname : string * N.

(** The upstream's answer to an outbound request. *)
Variable upstream :
  client → string → string → gmap string (option string) → option string → outcome.

(** Whether the interpreter gets the memory for a [bytes] object of the
    given length. *)
Variable can_allocate : Z → bool.

Definition STATIC_ASSETS_DIR : string := posixpath.join DIR ["static-assets"].

(** [RequestHandler.translate_path] *)
Definition translate_path (path : string) : result string :=
  (* replace colons (not allowed in win paths) with tilde *)
  let path := replace ":" "~" path in
  (* abandon query parameters *)
  path ← getitem (split1 "?" path) 0;
  path ← getitem (split1 "#" path) 0;
  let trailing_slash := endswith (rstrip path) "/" in
  let path := match unquote_surrogatepass path with
              | Some p => p
              | None => unquote path
              end in
  let path := posixpath.normpath path in
  let words := split "/" path in
  let words := filter (λ w, w ≠ "") words in
  let path :=
    foldl (λ path word,
             if bool_decide (posixpath.dirname word ≠ "")
                || bool_decide (word ∈ [posixpath.curdir; posixpath.pardir])
             then path
             else posixpath.join path [word])
          DIR words in
  let path := if trailing_slash then path +:+ "/" else path in
  if isdir path || endswith path ".html" || exists_ path then
    mret path
  else
    rel ← posixpath.relpath DIR path DIR;
    mret (posixpath.join STATIC_ASSETS_DIR [rel]).

(** The base class's [do_GET], as far as this server is concerned: it
    resolves the file with [self.translate_path(self.path)]; what it then
    does with that file (send it, list a directory, answer 404) is one
    event. *)
Definition SimpleHTTPRequestHandler_do_GET : M unit :=
  p ← gets path;
  f ← lift (translate_path p);
  emit (serve_file_ev f).

(** [client.request(method, url, headers=..., body=...)]: [putrequest]
    checks the request line; then the headers are put, and a header whose
    value is [None] makes [putheader] raise [TypeError] (the names and
    values that came through the server's header parser pass its other
    checks); only then is the request sent, and the upstream decides.  The
    result is the exchange that [getresponse] will complete. *)
Definition client_request (c : client) (method url : string)
    (hdrs : gmap string (option string)) (body : option string) : M outcome :=
  emit (client_request_ev c method url hdrs body);;
  lift (putrequest method url);;
  if bool_decide (map_Forall (λ _ v, v ≠ None) hdrs) then
    match upstream c method url hdrs body with
    | request_raises => mthrow TransportError
    | o => mret o
    end
  else mthrow TypeError.

(** [client.getresponse()] *)
Definition client_getresponse (c : client) (o : outcome) : M HTTPResponse :=
  emit (client_getresponse_ev c);;
  match o with
  | responds resp => mret resp
  | _ => mthrow TransportError
  end.

(** [for x in l: body(x)] *)
Fixpoint for_each {A} (l : list A) (body : A → M unit) : M unit :=
  match l with
  | [] => mret tt
  | x :: l' => body x;; for_each l' body
  end.

(** [RequestHandler._proxy] *)
Definition _proxy (Client : option ClientClass) (host : option string)
    (upstream_name : string) (method : string) (body : option string) : M unit :=
  match Client with
  | None =>
      send_response 400;;
      end_headers;;
      let message :=
        "Local server not configured to proxy " +:+ upstream_name
        +:+ ". Please run with the " +:+ dquote +:+ "--" +:+ upstream_name
        +:+ "-proxy-url" +:+ dquote +:+ " flag " in
      wfile_write message
  | Some Client =>
      client ← lift (new_client Client host);
      self_headers ← gets headers;
      self_path ← gets path;
      let req_headers := req_headers self_headers in
      o ← (if bool_decide (method ∈ _METHODS_EXPECTING_BODY)
           then client_request client method self_path req_headers body
           else client_request client method self_path req_headers None);
      r ← try (client_getresponse client o);
      match r with
      | Raised _ =>
          send_response 500;;
          end_headers;;
          let host := client_host client in
          let scheme := lower (slice_to_neg 10 (class_name (client_class client))) in
          url ← lift (urlunsplit [host; scheme; ""; ""]);
          let message := "Something went wrong proxying to " +:+ url in
          wfile_write message
      | Returned resp =>
          send_response (code resp);;
          for_each (resp_headers resp) (λ '(k, v),
            if bool_decide (k ∉ ["Transfer-Encoding"; "Connection"])
            then send_header k v else mret tt);;
          end_headers;;
          emit (copyfile_ev (resp_body resp))
      end
  end.

(** [RequestHandler.do_GET] *)
Definition do_GET : M unit :=
  self_path ← gets path;
  if startswith_any self_path PORTAL_PATH_PREFIXES then
    _proxy PORTAL_CLIENT_CLASS PORTAL_HOST "portal" "GET" None
  else if startswith self_path "/_search" then
    _proxy SEARCH_CLIENT_CLASS SEARCH_HOST "search" "GET" None
  else
    let redirect := redirects !! self_path in
    if truthy redirect then
      let sa := sockname in
      let location := "http://" +:+ sa.1 +:+ ":" +:+ of_N sa.2
                      +:+ default "" redirect in
      send_response 302;;
      send_header "Location" location;;
      end_headers
    else
      (* default to html if no valid filetype *)
      no_filetype ←
        (if endswith self_path "/" then mret false
         else if negb (contains "." self_path) then mret true
         else suffix ← lift (getitem (rsplit1 "." self_path) 1);
              mret (bool_decide (suffix ∉ filetypes)));
      (if no_filetype : bool then set_path (self_path +:+ ".html") else mret tt);;
      SimpleHTTPRequestHandler_do_GET.

(** [self.rfile.read(n)] on the buffered reader.  The argument has to fit
    a [Py_ssize_t] ([OverflowError]); below -1 it is refused
    ([ValueError]); -1 reads all of the input; otherwise a [bytes] object of
    [n] bytes is allocated first ([OverflowError] when [n] and the object
    header exceed [sys.maxsize], [MemoryError] when there is no memory for
    it) and filled with [n] bytes, fewer at the end of the input.  A call
    that raises reads nothing. *)
Definition rfile_read (n : Z) : M string := λ h,
  let take (data : string) :=
    ({| path := path h; headers := headers h; client_address := client_address h;
        rfile := String.substring (String.length data)
                   (String.length (rfile h) - String.length data) (rfile h);
        trace := trace h |}, Returned data) in
  if decide (n < - maxsize - 1 ∨ maxsize < n) then (h, Raised OverflowError)
  else if decide (n < -1) then (h, Raised ValueError)
  else if decide (n = -1) then take (rfile h)
  else if decide (maxsize - PyBytesObject_SIZE < n) then (h, Raised OverflowError)
  else if can_allocate n then take (slice_to n (rfile h))
  else (h, Raised MemoryError).

(** [RequestHandler.do_POST] *)
Definition do_POST : M unit :=
  self_path ← gets path;
  if decide (self_path = AUTH_PATH_PREFIX) then
    self_headers ← gets headers;
    content_len ← lift (int (Message_get self_headers "Content-Length"));
    body ← rfile_read content_len;
    _proxy PORTAL_CLIENT_CLASS PORTAL_HOST "portal" "POST" (Some body)
  else mret tt.

End Server.

(** * Start-up: metadata, upstream targets, static assets *)

(** [s.upper()] on the Latin-1 range.  Three characters leave the range:
    the sharp s becomes [SS], and y-diaeresis and the micro sign become
    U+0178 and U+039C, which stand here as their UTF-8 bytes. *)
Definition upper_char (c : ascii) : string :=
  let n := nat_of_ascii c in
  if ((97 <=? n) && (n <=? 122)
      || (224 <=? n) && (n <=? 254) && negb (n =? 247))%nat
  then String (ascii_of_nat (n - 32)) ""
  else if (n =? 223)%nat then "SS"
  else if (n =? 255)%nat then String (chr 197) (String (chr 184) "")
  else if (n =? 181)%nat then String (chr 206) (String (chr 156) "")
  else String c "".

Fixpoint upper (s : string) : string :=
  match s with
  | "" => ""
  | String c s' => upper_char c +:+ upper s'
  end.

(** [posixpath.basename(p)] *)
Definition basename (p : string) : string := slice_from (rfind "/" p + 1) p.

(** A JSON document as [json.load] returns it: [JNull] is [None], an
    object is a [dict] (of a repeated key the last value stays). *)
#[warning="-register-all"]
Inductive json :=
| JNull
| JBool (b : bool)
| JNum (literal : string)
| JStr (s : string)
| JArr (items : list json)
| JObj (members : gmap string json).

(** [v.get(key, failobj)]: only a [dict] has [get]. *)
Definition json_get (v : json) (key : string) (failobj : json) : result json :=
  match v with
  | JObj members => Returned (default failobj (members !! key))
  | _ => Raised AttributeError
  end.

(** [v is None] *)
Definition is_None (v : json) : bool :=
  match v with
  | JNull => true
  | _ => false
  end.

(** How a start-up step ends: it goes on with a value, an exception leaves
    it, or [sys.exit] ends the process. *)
Inductive ending (A : Type) :=
| Done (a : A)
| Failed (e : exn)
| Exited (status : Z).
Arguments Done {A} a.
Arguments Failed {A} e.
Arguments Exited {A} status.

(** What start-up code does that the outside can see: lines printed (an
    error line carries the exception it formats), the URL opened, and the
    directories made and files written. *)
Inductive startup_event :=
| print_ev (line : string)
| print_error_ev (e : exn)
| urlopen_ev (url : string)
| mkdir_ev (p : string)
| write_file_ev (p : string) (data : string).

Section Startup.

(** The file system: its states, and [os.path.exists], [os.listdir],
    [os.mkdir] and writing a file opened with mode [wb], each of which may
    raise.  What is proved below holds for every file system. *)
Variable FS : Type.
Variable fs_exists : FS → string → bool.
Variable fs_listdir : FS → string → result (list string).
Variable fs_mkdir : FS → string → result FS.
Variable fs_write : FS → string → string → result FS.

(** [urllib.parse.urlparse(url)], its scheme and network location. *)
Variable urlparse : string → string * string.

(** A start-up computation: over the file system and what was output. *)
Definition Script (A : Type) : Type :=
  FS * list startup_event → (FS * list startup_event) * ending A.

Global Instance Script_ret : MRet Script := λ A a w, (w, Done a).
Global Instance Script_bind : MBind Script := λ A B f m w,
  match m w with
  | (w', Done a) => f a w'
  | (w', Failed e) => (w', Failed e)
  | (w', Exited n) => (w', Exited n)
  end.

(** The world after it printed or did [evs]. *)
Definition said (w : FS * list startup_event) (evs : list startup_event)
    : FS * list startup_event := (w.1, w.2 ++ evs).

Definition out (e : startup_event) : Script unit := λ w, ((w.1, w.2 ++ [e]), Done tt).
Definition print (line : string) : Script unit := out (print_ev line).
Definition sys_exit {A} (status : Z) : Script A := λ w, (w, Exited status).

(** A pure step that may raise. *)
Definition step {A} (r : result A) : Script A := λ w,
  match r with
  | Returned a => (w, Done a)
  | Raised e => (w, Failed e)
  end.

(** A step on the file system. *)
Definition fs_step (op : FS → result FS) (e : startup_event) : Script unit := λ w,
  match op w.1 with
  | Returned fs' => ((fs', w.2 ++ [e]), Done tt)
  | Raised err => (w, Failed err)
  end.

(** A step that looks at the file system. *)
Definition with_fs {A} (f : FS → Script A) : Script A := λ w, f w.1 w.

(** [try: m  except Exception as e: handler(e)] *)
Definition try_except {A} (m : Script A) (handler : exn → Script A) : Script A := λ w,
  match m w with
  | (w', Failed e) => handler e w'
  | r => r
  end.

(** Lines 37-44: the canonical URLs of [metadata.json]; without both, the
    process prints two lines and exits. *)
Definition canonical_urls (VERSION_INFO : json) : Script (json * json) :=
  meta ← step (json_get VERSION_INFO "meta" (JObj ∅));
  CANONICAL_URLS ← step (json_get meta "canonical-urls" (JObj ∅));
  DEFAULT_SEARCH_URL ← step (json_get CANONICAL_URLS "html" JNull);
  STATIC_ASSETS_REPO_URL ← step (json_get CANONICAL_URLS "static-assets" JNull);
  if is_None DEFAULT_SEARCH_URL || is_None STATIC_ASSETS_REPO_URL then
    print ("'<html>' and '<static-assets>' tags are required in law-xml/index.xml"
           +:+ " under '<canonical-urls>'.");;
    print "Try pulling the latest law-xml changes and building repositories again.";;
    sys_exit 1
  else mret (DEFAULT_SEARCH_URL, STATIC_ASSETS_REPO_URL).

(** [getattr(http.client, name)] for a name that ends in [Connection]:
    the module has [HTTPConnection] and [HTTPSConnection]. *)
Definition http_client_getattr (attr : string) : result ClientClass :=
  if decide (attr = "HTTPConnection") then Returned HTTPConnection
  else if decide (attr = "HTTPSConnection") then Returned HTTPSConnection
  else Raised AttributeError.

(** [get_http_client_info] *)
Definition get_http_client_info (upstream_name : string) (url : option string)
    : Script (option ClientClass * option string) :=
  match url with
  | None | Some "" => mret (None, None)
  | Some url =>
      let '(scheme, host) := urlparse url in
      (if decide (scheme = "") then
         print ("Must include scheme in " +:+ upstream_name
                +:+ "-proxy-url (e.g. https://example.com, rather than example.com)")
       else mret tt);;
      Client ← step (http_client_getattr (upper scheme +:+ "Connection"));
      print ("PROXYING: " +:+ dquote +:+ "/_" +:+ upstream_name +:+ dquote
             +:+ " to " +:+ url);;
      mret (Some Client, Some host)
  end.

(** An archive as [ZipFile] sees it: the member names in order, each with
    its content. *)
Definition archive := list (string * string).

(** The entry that [zip_file.open(member)] reads: of a repeated name the
    last one. *)
Fixpoint zip_entry (zip_file : archive) (member : string) : option string :=
  match zip_file with
  | [] => None
  | (n, data) :: rest =>
      match zip_entry rest member with
      | Some later => Some later
      | None => if decide (n = member) then Some data else None
      end
  end.

(** [zip_file.open(member).read()], for a [member] of [namelist()]. *)
Definition zip_read (zip_file : archive) (member : string) : string :=
  default "" (zip_entry zip_file member).

(** [urllib.request.urlopen(url)] (with the certificate check as
    [_fix_cert] left it) and [ZipFile(BytesIO(data.read()))] together: the
    archive behind the URL, with its members readable, or an exception. *)
Variable fetch : string → result archive.

(** The body of the loop of [download_static_assets] for one member, with
    the document directory [DIR] as working directory. *)
Definition extract_member (DIR : string) (zip_file : archive) (root_dir member : string)
    : Script unit :=
  rel ← step (posixpath.relpath DIR member root_dir);
  let member_path := posixpath.join (STATIC_ASSETS_DIR DIR) [rel] in
  (* skip empty directories *)
  if decide (basename member = "") then
    with_fs (λ fs,
      if fs_exists fs member_path then mret tt
      else fs_step (λ fs, fs_mkdir fs member_path) (mkdir_ev member_path))
  else
    (* copy file *)
    let source := zip_read zip_file member in
    fs_step (λ fs, fs_write fs member_path source) (write_file_ev member_path source).

Fixpoint for_members (members : list string) (body : string → Script unit) : Script unit :=
  match members with
  | [] => mret tt
  | m :: rest => body m;; for_members rest body
  end.

(** [download_static_assets] *)
Definition download_static_assets (DIR : string) (static_assets_repo_url : string)
    (force : bool) : Script unit :=
  (* skip download if already exists *)
  with_fs (λ fs,
    listing ← step (fs_listdir fs (STATIC_ASSETS_DIR DIR));
    if negb (bool_decide (length listing = 0%nat) || force) then mret tt
    else
      print (String (chr 10) "Downloading static assets..." +:+ String (chr 10) "");;
      try_except
        (let ZIP_URL := static_assets_repo_url +:+ "/archive/master.zip" in
         out (urlopen_ev ZIP_URL);;
         zip_file ← step (fetch ZIP_URL);
         let files := zip_file.*1 in
         root_dir ← step (getitem files 0);
         let files := drop 1 files in
         for_members files (extract_member DIR zip_file root_dir))
        (λ e, out (print_error_ev e);; sys_exit 1)).

End Startup.

(** * Vocabulary of the statements *)

(** ** Traces *)

(** The response headers that the relay loop of [_proxy] sends. *)
Definition relayed (hs : list (string * string)) : list event :=
  (λ kv, send_header_ev kv.1 kv.2)
    <$> filter (λ kv, kv.1 ∉ ["Transfer-Encoding"; "Connection"]) hs.

(** The body that [_proxy] passes to [client.request]. *)
Definition sent_body (method : string) (body : option string) : option string :=
  if bool_decide (method ∈ _METHODS_EXPECTING_BODY) then body else None.

(** The connection an event is a call on, if any. *)
Definition upstream_of (e : event) : option client :=
  match e with
  | client_request_ev c _ _ _ _ | client_getresponse_ev c => Some c
  | _ => None
  end.

(** The connection that [Client(host)] builds, for a configured target. *)
Definition client_of (Client : option ClientClass) (host : option string)
    (c : client) : Prop :=
  ∃ cls, Client = Some cls ∧ new_client cls host = Returned c.

(** The status lines and the ends of headers in a trace. *)
Definition is_send_response (e : event) : bool :=
  match e with send_response_ev _ => true | _ => false end.
Definition is_end_headers (e : event) : bool :=
  match e with end_headers_ev => true | _ => false end.
Definition count (f : event → bool) (evs : list event) : nat :=
  length (List.filter f evs).

(** ** The outbound headers, as claimed *)

(** The outbound headers as C7 words them: the inbound headers without the
    Host header, and the three forwarding headers. *)
Definition claimed_req_headers (self_headers : Message) : gmap string (option string) :=
  <["X-Forwarded-Proto" := Some "http"]>
    (<["X-Forwarded-Host" := Message_get self_headers "Host"]>
       (<["X-Forwarded-For" := Some "self.address_string()"]>
          (list_to_map
             (prod_map id Some
                <$> filter (λ kv, lower kv.1 ≠ "host") self_headers)))).

(** ** Paths *)

(** A simple name: not empty, no separator in it. *)
Definition name (w : string) : Prop := w ≠ "" ∧ contains "/" w = false.

(** A name that survives the loop of [translate_path]. *)
Definition plain (w : string) : Prop := name w ∧ w ≠ "." ∧ w ≠ "..".

(** The absolute path with the components [l]. *)
Definition abs (l : list string) : string := "/" +:+ join "/" l.

(** [p] is lexically within [root]: it is [root] followed by nothing or by
    components none of which is [..]. *)
Definition under (root p : string) : Prop :=
  ∃ rest, p = root +:+ rest
          ∧ (rest = "" ∨ startswith rest "/" = true ∨ endswith root "/" = true)
          ∧ ".." ∉ split "/" rest.

(** The words that the loop of [translate_path] keeps. *)
Definition kept (words : list string) : list string :=
  filter (λ w, w ∉ [posixpath.curdir; posixpath.pardir]) words.

(** A member name below the archive's top-level directory [r/]: the
    plain components [comps] after [r], with a final slash for a
    directory entry. *)
Definition below (r member : string) : Prop :=
  ∃ comps tail, Forall plain comps ∧ comps ≠ [] ∧ (tail = "" ∨ tail = "/")
                ∧ member = join "/" (r :: comps) +:+ tail.

(** What a start-up event makes or writes is within [root]. *)
Definition touches_within (root : string) (e : startup_event) : Prop :=
  match e with
  | mkdir_ev p | write_file_ev p _ => under root p
  | _ => True
  end.

(** ** Concrete requests *)

(** A handler fresh for a request from 127.0.0.1:54321. *)
Definition request (p : string) (hs : Message) (input : string) : handler :=
  {| path := p; headers := hs; client_address := ("127.0.0.1", 54321%N);
     rfile := input; trace := [] |}.

(** A file system with nothing in it, a memory with room for objects up
    to [limit] bytes, and upstreams with one answer. *)
Definition no_file (_ : string) : bool := false.
Definition memory_of (limit : Z) : Z → bool := λ n, n <=? limit.
Definition always (o : outcome) :
    client → string → string → gmap string (option string) → option string → outcome :=
  λ _ _ _ _ _, o.

(** The value of a hexadecimal digit. *)
Definition hexval (c : ascii) : option nat :=
  let n := nat_of_ascii c in
  if ((48 <=? n) && (n <=? 57))%nat then Some (n - 48)%nat
  else if ((65 <=? n) && (n <=? 70))%nat then Some (n - 55)%nat
  else if ((97 <=? n) && (n <=? 102))%nat then Some (n - 87)%nat
  else None.

(** A percent-decoder for the concrete requests: every [%XX] becomes the
    byte [XX].  It is [urllib.parse.unquote] on ASCII paths whose escapes
    are all below [%80]. *)
Fixpoint percent_decode (s : string) : string :=
  match s with
  | "" => ""
  | String c t =>
      match t with
      | String a (String b u) =>
          match (if decide (c = "%"%char) then Some tt else None), hexval a, hexval b with
          | Some _, Some x, Some y => String (ascii_of_nat (16 * x + y)) (percent_decode u)
          | _, _, _ => String c (percent_decode t)
          end
      | _ => String c (percent_decode t)
      end
  end.

(** The server in [/srv/law-html], bound to 127.0.0.1:8000, with both
    targets given. *)
Definition serve (portal search : option ClientClass) (redirects : gmap string string)
    (upstream : client → string → string → gmap string (option string)
                → option string → outcome) : M unit :=
  do_GET "/srv/law-html" no_file no_file (λ s, Some (percent_decode s)) percent_decode
    portal (portal ≫= λ _, Some "portal.example.org")
    search (search ≫= λ _, Some "search.example.org")
    redirects ("127.0.0.1", 8000%N) upstream.

(** The same request from another client. *)
Definition request_from (addr : string * N) (p : string) (hs : Message)
    (input : string) : handler :=
  {| path := p; headers := hs; client_address := addr; rfile := input; trace := [] |}.

(** ** Concrete start-up runs *)

(** A file system that never fails: a path is a directory ([None]) or a
    file with its content. *)
Definition toy_fs : Type := gmap string (option string).
Definition toy_exists (fs : toy_fs) (p : string) : bool := bool_decide (is_Some (fs !! p)).
Definition toy_listdir (fs : toy_fs) (p : string) : result (list string) :=
  Returned (filter (λ k, startswith k (p +:+ "/") = true) (map_to_list fs).*1).
Definition toy_mkdir (fs : toy_fs) (p : string) : result toy_fs :=
  Returned (<[p := None]> fs).
Definition toy_write (fs : toy_fs) (p data : string) : result toy_fs :=
  Returned (<[p := Some data]> fs).

(** The URLs of the concrete runs, as [urlparse] splits them. *)
Definition toy_urlparse (url : string) : string * string :=
  if decide (url = "https://search.example.org") then ("https", "search.example.org")
  else if decide (url = "ftp://files.example.org") then ("ftp", "files.example.org")
  else ("", "").

(** An archive with a style sheet in a directory. *)
Definition toy_archive : archive :=
  [("assets-master/", ""); ("assets-master/css/", "");
   ("assets-master/css/site.css", "body{}")].
Definition toy_fetch (url : string) : result archive :=
  if decide (url = "https://github.example.org/assets/archive/master.zip")
  then Returned toy_archive else Raised TransportError.

(** * Properties *)

(** ** The handler monad *)

Lemma record_nil h : record h [] = h.
Proof. destruct h. unfold record. simpl. by rewrite app_nil_r. Qed.

Lemma record_record h evs1 evs2 :
  record (record h evs1) evs2 = record h (evs1 ++ evs2).
Proof. unfold record. simpl. by rewrite app_assoc. Qed.

Lemma trace_record h evs : trace (record h evs) = trace h ++ evs.
Proof. reflexivity. Qed.

Lemma bind_run {A B} (m : M A) (f : A → M B) h :
  (m ≫= f) h = match m h with
               | (h', Returned a) => f a h'
               | (h', Raised e) => (h', Raised e)
               end.
Proof. reflexivity. Qed.

Lemma ret_run {A} (a : A) h : @mret M _ A a h = (h, Returned a).
Proof. reflexivity. Qed.

Lemma throw_run {A} (e : exn) h : @mthrow exn M _ A e h = (h, Raised e).
Proof. reflexivity. Qed.

Lemma emit_run e h : emit e h = (record h [e], Returned tt).
Proof. reflexivity. Qed.

Lemma lift_run {A} (r : result A) h : lift r h = (h, r).
Proof. reflexivity. Qed.

Lemma gets_run {A} (f : handler → A) h : gets f h = (h, Returned (f h)).
Proof. reflexivity. Qed.

Lemma relay_loop hs h :
  for_each hs (λ '(k, v),
    if bool_decide (k ∉ ["Transfer-Encoding"; "Connection"])
    then send_header k v else mret tt) h
  = (record h (relayed hs), Returned tt).
Proof.
  revert h. induction hs as [|[k v] hs IH]; intros h.
  - by rewrite record_nil.
  - cbn [for_each]. rewrite bind_run. unfold relayed.
    rewrite filter_cons. cbn [fst].
    destruct (decide (k ∉ ["Transfer-Encoding"; "Connection"])) as [Hk|Hk].
    + rewrite (bool_decide_eq_true_2 _ Hk).
      unfold send_header. rewrite emit_run, IH, record_record. reflexivity.
    + rewrite (bool_decide_eq_false_2 _ Hk).
      rewrite ret_run. by rewrite IH.
Qed.

Section ProxyFacts.

Variable upstream :
  client → string → string → gmap string (option string) → option string → outcome.

(** [_proxy] with a configured upstream, case by case. *)
Lemma proxy_configured cls host c name method body h :
  new_client cls host = Returned c →
  _proxy upstream (Some cls) host name method body h =
    let hs := req_headers (headers h) in
    let b := sent_body method body in
    let h1 := record h [client_request_ev c method (path h) hs b] in
    match putrequest method (path h) with
    | Raised e => (h1, Raised e)
    | Returned _ =>
        if bool_decide (map_Forall (λ _ v, v ≠ None) hs) then
          match upstream c method (path h) hs b with
          | request_raises => (h1, Raised TransportError)
          | getresponse_raises =>
              (record h1 [client_getresponse_ev c; send_response_ev 500; end_headers_ev],
               Raised ValueError)
          | responds resp =>
              (record h1 ([client_getresponse_ev c; send_response_ev (code resp)]
                          ++ relayed (resp_headers resp)
                          ++ [end_headers_ev; copyfile_ev (resp_body resp)]),
               Returned tt)
          end
        else (h1, Raised TypeError)
    end.
Proof.
  intros Hc. unfold _proxy. rewrite bind_run, lift_run, Hc.
  rewrite bind_run, gets_run, bind_run, gets_run. cbv zeta.
  rewrite bind_run.
  assert (Hreq :
    (if bool_decide (method ∈ _METHODS_EXPECTING_BODY)
     then client_request upstream c method (path h) (req_headers (headers h)) body
     else client_request upstream c method (path h) (req_headers (headers h)) None)
    = client_request upstream c method (path h) (req_headers (headers h))
        (sent_body method body)).
  { unfold sent_body. by destruct (bool_decide _). }
  rewrite Hreq. clear Hreq.
  unfold client_request at 1. rewrite bind_run, emit_run.
  rewrite bind_run, lift_run.
  destruct (putrequest method (path h)) as [[]|e]; [|reflexivity].
  destruct (bool_decide (map_Forall _ _)); [|reflexivity].
  destruct (upstream c method (path h) (req_headers (headers h))
              (sent_body method body)) as [| |resp] eqn:Hup.
  - reflexivity.
  - rewrite ret_run. rewrite bind_run. unfold try, client_getresponse.
    rewrite bind_run, emit_run, throw_run.
    rewrite bind_run. unfold send_response. rewrite emit_run.
    rewrite bind_run. unfold end_headers. rewrite emit_run.
    rewrite bind_run, lift_run.
    change (urlunsplit [?a; ?b; ""; ""]) with (@Raised string ValueError).
    rewrite !record_record. reflexivity.
  - rewrite ret_run. rewrite bind_run. unfold try, client_getresponse.
    rewrite bind_run, emit_run, ret_run.
    rewrite bind_run. unfold send_response. rewrite emit_run.
    rewrite bind_run, relay_loop. rewrite bind_run.
    unfold end_headers. rewrite !emit_run, !record_record.
    reflexivity.
Qed.

(** [_proxy] without a configured upstream. *)
Lemma proxy_unconfigured host name method body h :
  _proxy upstream None host name method body h =
    (record h [send_response_ev 400; end_headers_ev;
               wfile_write_ev ("Local server not configured to proxy " +:+ name
                 +:+ ". Please run with the " +:+ dquote +:+ "--" +:+ name
                 +:+ "-proxy-url" +:+ dquote +:+ " flag ")],
     Returned tt).
Proof.
  unfold _proxy, send_response, end_headers, wfile_write.
  rewrite bind_run, emit_run, bind_run, !emit_run, !record_record.
  reflexivity.
Qed.

End ProxyFacts.

(** ** The outbound headers *)

Lemma foldl_insert_lookup {V} (f : string → V) (ks : list string)
    (d : gmap string V) (k : string) :
  foldl (λ d k, <[k := f k]> d) d ks !! k
  = if decide (k ∈ ks) then Some (f k) else d !! k.
Proof.
  revert d. induction ks as [|k' ks IH]; intros d; cbn [foldl].
  - by rewrite decide_False by apply not_elem_of_nil.
  - rewrite IH. destruct (decide (k ∈ ks)) as [Hin|Hin].
    + by rewrite decide_True by (by right).
    + destruct (decide (k = k')) as [->|Hne].
      * rewrite lookup_insert_eq. by rewrite decide_True by left.
      * rewrite lookup_insert_ne by done.
        rewrite decide_False; [done|]. by intros [?|?]%elem_of_cons.
Qed.

Lemma Message_get_key msg k :
  k ∈ Message_keys msg → is_Some (Message_get msg k).
Proof.
  unfold Message_keys. induction msg as [|[k' v] msg IH]; cbn.
  - by intros ?%elem_of_nil.
  - intros [->|Hin]%elem_of_cons.
    + by rewrite decide_True.
    + destruct (decide (lower k' = lower k)); [by eexists|by apply IH].
Qed.

(** Each entry of the outbound headers. *)
Lemma req_headers_lookup msg k :
  req_headers msg !! k =
    if decide (k = "X-Forwarded-Proto") then Some (Some "http")
    else if decide (k = "X-Forwarded-Host") then Some (Message_get msg "Host")
    else if decide (k = "X-Forwarded-For") then Some (Some "self.address_string()")
    else if decide (k = "Host") then None
    else if decide (k ∈ Message_keys msg) then Some (Message_get msg k)
    else None.
Proof.
  unfold req_headers, dict_update, dict_update_Message. cbn [foldl fst snd].
  destruct (decide (k = "X-Forwarded-Proto")) as [->|H1];
    [by rewrite lookup_insert_eq|rewrite lookup_insert_ne by done].
  destruct (decide (k = "X-Forwarded-Host")) as [->|H2];
    [by rewrite lookup_insert_eq|rewrite lookup_insert_ne by done].
  destruct (decide (k = "X-Forwarded-For")) as [->|H3];
    [by rewrite lookup_insert_eq|rewrite lookup_insert_ne by done].
  destruct (decide (k = "Host")) as [->|H4];
    [by rewrite lookup_delete_eq|rewrite lookup_delete_ne by done].
  rewrite foldl_insert_lookup. by rewrite lookup_empty.
Qed.

(** No outbound header has the value [None] exactly when the request
    carries a Host header (in any spelling). *)
Lemma req_headers_no_None msg :
  map_Forall (λ _ v, v ≠ None) (req_headers msg) ↔ is_Some (Message_get msg "Host").
Proof.
  split.
  - intros Hall. specialize (Hall "X-Forwarded-Host" (Message_get msg "Host")).
    rewrite req_headers_lookup in Hall. cbn in Hall.
    destruct (Message_get msg "Host"); [by eexists|]. by destruct Hall.
  - intros [host Hhost] k v. rewrite req_headers_lookup.
    repeat case_decide; intros ?; simplify_eq; try done.
    + by rewrite Hhost.
    + by destruct (Message_get_key msg k) as [? ->].
Qed.

(** ** Python string methods, against concatenation *)

Lemma str_app_cons a s t : String a s +:+ t = String a (s +:+ t).
Proof. reflexivity. Qed.

Lemma str_app_nil_l s : "" +:+ s = s.
Proof. reflexivity. Qed.

Lemma str_app_nil_r s : s +:+ "" = s.
Proof. induction s as [|a s IH]; [done|]. by rewrite str_app_cons, IH. Qed.

Lemma str_app_assoc s t u : (s +:+ t) +:+ u = s +:+ t +:+ u.
Proof. induction s as [|a s IH]; [done|]. by rewrite !str_app_cons, IH. Qed.

Lemma str_app_eq_nil s t : s +:+ t = "" → s = "" ∧ t = "".
Proof. destruct s; [done|]. by rewrite str_app_cons. Qed.

Lemma startswith_spec s p :
  startswith s p = true ↔ ∃ rest, s = p +:+ rest.
Proof.
  revert s. induction p as [|a p IH]; intros s.
  - split; [intros _; by exists s|]. by destruct s.
  - destruct s as [|b s]; cbn [startswith].
    + split; [done|]. by intros [rest ?].
    + destruct (decide (a = b)) as [->|Hne].
      * rewrite IH. split; intros [rest Hr]; exists rest.
        -- by rewrite str_app_cons, Hr.
        -- rewrite str_app_cons in Hr. by simplify_eq.
      * split; [done|]. intros [rest Hr]. rewrite str_app_cons in Hr. by simplify_eq.
Qed.

Lemma startswith_false s p :
  (∀ rest, s ≠ p +:+ rest) → startswith s p = false.
Proof.
  intros Hno. destruct (startswith s p) eqn:Hs; [|done].
  apply startswith_spec in Hs as [rest ->]. by destruct (Hno rest).
Qed.

Lemma endswith_spec s p :
  endswith s p = true ↔ ∃ pre, s = pre +:+ p.
Proof.
  induction s as [|a s IH].
  - cbn [endswith]. destruct (decide ("" = p)) as [<-|Hne].
    + split; [by exists ""|done].
    + split; [done|]. intros [pre Hp]. symmetry in Hp.
      apply str_app_eq_nil in Hp as [_ ->]. done.
  - cbn [endswith]. destruct (decide (String a s = p)) as [<-|Hne].
    + split; [by exists ""|done].
    + rewrite IH. split.
      * intros [pre ->]. by exists (String a pre).
      * intros [[|b pre] Hp]; [by destruct Hne|].
        rewrite str_app_cons in Hp. simplify_eq. by exists pre.
Qed.

Lemma endswith_false s p :
  (∀ pre, s ≠ pre +:+ p) → endswith s p = false.
Proof.
  intros Hno. destruct (endswith s p) eqn:Hs; [|done].
  apply endswith_spec in Hs as [pre ->]. by destruct (Hno pre).
Qed.

Lemma contains_spec c s :
  contains c s = true ↔ ∃ pre suf, s = pre +:+ String c suf.
Proof.
  induction s as [|a s IH]; cbn [contains].
  - split; [done|]. intros (pre & suf & Hs). symmetry in Hs.
    by apply str_app_eq_nil in Hs as [_ ?].
  - destruct (decide (a = c)) as [->|Hne].
    + split; [|done]. intros _. by exists "", s.
    + rewrite IH. split.
      * intros (pre & suf & ->). by exists (String a pre), suf.
      * intros ([|b pre] & suf & Hs); rewrite ?str_app_cons, ?str_app_nil_l in Hs;
          simplify_eq. by exists pre, suf.
Qed.

Lemma contains_false c s :
  (∀ pre suf, s ≠ pre +:+ String c suf) → contains c s = false.
Proof.
  intros Hno. destruct (contains c s) eqn:Hs; [|done].
  apply contains_spec in Hs as (pre & suf & ->). by destruct (Hno pre suf).
Qed.

Lemma contains_false_inv c s pre suf :
  contains c s = false → s ≠ pre +:+ String c suf.
Proof.
  intros Hc ->. assert (contains c (pre +:+ String c suf) = true) as Ht
    by (apply contains_spec; eauto). congruence.
Qed.

(** A string that contains [c] has a last occurrence of it. *)
Lemma contains_last c s :
  contains c s = true →
  ∃ pre suf, s = pre +:+ String c suf ∧ contains c suf = false.
Proof.
  induction s as [|a s IH]; [done|]. cbn [contains]. intros Hs.
  destruct (contains c s) eqn:Hc.
  - destruct IH as (pre & suf & -> & Hsuf); [done|].
    by exists (String a pre), suf.
  - destruct (decide (a = c)) as [->|]; [|done]. by exists "", s.
Qed.

(** [rsplit(sep, 1)] cuts at the last separator. *)
Lemma rsplit1_no_sep c s : contains c s = false → rsplit1 c s = [s].
Proof.
  induction s as [|a s IH]; [done|]. cbn [contains rsplit1].
  destruct (decide (a = c)); [done|]. intros Hs. by rewrite (IH Hs).
Qed.

Lemma rsplit1_last c pre suf :
  contains c suf = false → rsplit1 c (pre +:+ String c suf) = [pre; suf].
Proof.
  intros Hsuf. induction pre as [|a pre IH].
  - rewrite str_app_nil_l. cbn [rsplit1]. rewrite (rsplit1_no_sep _ _ Hsuf).
    by rewrite decide_True.
  - rewrite str_app_cons. cbn [rsplit1]. by rewrite IH.
Qed.

(** ** Calls on the upstream connection *)

Lemma relayed_spec hs k v :
  send_header_ev k v ∈ relayed hs
  ↔ (k, v) ∈ hs ∧ k ≠ "Transfer-Encoding" ∧ k ≠ "Connection".
Proof.
  unfold relayed. rewrite list_elem_of_fmap. split.
  - intros ([k' v'] & Heq & Hin). cbn in Heq. simplify_eq.
    apply list_elem_of_filter in Hin as [Hk Hin]. cbn in Hk.
    split; [done|]. split; intros ->; apply Hk; [left|right; left].
  - intros (Hin & H1 & H2). exists (k, v). split; [done|].
    apply list_elem_of_filter. split; [|done]. cbn.
    intros [?|[?|[]%elem_of_nil]%elem_of_cons]%elem_of_cons; done.
Qed.

Lemma relayed_no_upstream hs : omap upstream_of (relayed hs) = [].
Proof.
  unfold relayed. induction (filter _ hs) as [|kv l IH]; [done|].
  by rewrite fmap_cons.
Qed.

(** Every event of a literal trace is a call on [c] or no call at all. *)
Ltac calls_on :=
  repeat match goal with
    | |- Forall _ [] => constructor
    | |- Forall _ (_ :: _) => constructor; [cbn; auto|]
    | |- Forall _ (_ ++ _) => apply Forall_app; split
    | |- Forall _ (relayed _) =>
        unfold relayed; apply Forall_fmap, Forall_forall; intros; by left
    end.

Section Routing.

Variable DIR : string.
Variable isdir exists_ : string → bool.
Variable unquote_surrogatepass : string → option string.
Variable unquote : string → string.
Variable PORTAL_CLIENT_CLASS : option ClientClass.
Variable PORTAL_HOST : option string.
Variable SEARCH_CLIENT_CLASS : option ClientClass.
Variable SEARCH_HOST : option string.
Variable redirects : gmap string string.
Variable sockname : string * N.
Variable upstream :
  client → string → string → gmap string (option string) → option string → outcome.
Variable can_allocate : Z → bool.

Local Abbreviation GET redirects :=
  (do_GET DIR isdir exists_ unquote_surrogatepass unquote
     PORTAL_CLIENT_CLASS PORTAL_HOST SEARCH_CLIENT_CLASS SEARCH_HOST
     redirects sockname upstream).
Local Abbreviation POST :=
  (do_POST PORTAL_CLIENT_CLASS PORTAL_HOST upstream can_allocate).
Local Abbreviation proxy := (_proxy upstream).
Local Abbreviation resolve := (translate_path DIR isdir exists_ unquote_surrogatepass unquote).

(** Whatever [_proxy] does, its calls on an upstream connection are calls
    on the connection of the target it was given. *)
Lemma proxy_upstream_calls Client host name method body h :
  ∃ evs, (proxy Client host name method body h).1 = record h evs
         ∧ ∀ c, Some c ∈ upstream_of <$> evs → client_of Client host c.
Proof.
  destruct Client as [cls|].
  - destruct (new_client cls host) as [c|e] eqn:Hc.
    + rewrite (proxy_configured _ _ _ _ _ _ _ _ Hc). cbv zeta.
      assert (∀ evs c', Some c' ∈ upstream_of <$> evs →
                Forall (λ e, upstream_of e = None ∨ upstream_of e = Some c) evs →
                client_of (Some cls) host c') as Hall.
      { intros evs c' [e [He Hin]]%list_elem_of_fmap Hfa.
        rewrite Forall_forall in Hfa. destruct (Hfa e Hin) as [Hn|Hs];
          [congruence|]. exists cls. split; [done|]. congruence. }
      destruct (putrequest _ _) as [[]|e];
        [destruct (bool_decide _); [destruct (upstream _ _ _ _ _) as [| |resp]|]|];
        cbn [fst]; rewrite ?record_record; eexists; (split; [reflexivity|]);
        intros c' Hc'; apply (Hall _ _ Hc'); calls_on.
    + exists []. split.
      * unfold _proxy. rewrite bind_run, lift_run, Hc. cbn. by rewrite record_nil.
      * intros c Hin. by apply elem_of_nil in Hin.
  - rewrite proxy_unconfigured. eexists. split; [reflexivity|].
    intros c Hin. cbn in Hin.
    repeat (apply elem_of_cons in Hin as [?|Hin]; [done|]).
    by apply elem_of_nil in Hin.
Qed.

(** With a configured target whose connection can be built, the first
    thing [_proxy] does is the outbound request, with the headers
    [req_headers] builds. *)
Lemma proxy_request_first cls host c name method body h :
  new_client cls host = Returned c →
  ∃ evs r,
    proxy (Some cls) host name method body h =
      (record h (client_request_ev c method (path h) (req_headers (headers h))
                   (sent_body method body) :: evs), r).
Proof.
  intros Hc. rewrite (proxy_configured _ _ _ _ _ _ _ _ Hc). cbv zeta.
  destruct (putrequest _ _) as [[]|e];
    [destruct (bool_decide _); [destruct (upstream _ _ _ _ _)|]|];
    rewrite ?record_record; eauto.
Qed.

Lemma static_run h :
  SimpleHTTPRequestHandler_do_GET DIR isdir exists_ unquote_surrogatepass unquote h =
    match resolve (path h) with
    | Returned f => (record h [serve_file_ev f], Returned tt)
    | Raised e => (h, Raised e)
    end.
Proof.
  unfold SimpleHTTPRequestHandler_do_GET.
  rewrite bind_run, gets_run, bind_run, lift_run.
  by destruct (resolve (path h)).
Qed.

(** [do_GET], branch by branch. *)
Lemma do_GET_portal h :
  startswith_any (path h) PORTAL_PATH_PREFIXES = true →
  GET redirects h = proxy PORTAL_CLIENT_CLASS PORTAL_HOST "portal" "GET" None h.
Proof. intros Hp. unfold do_GET. by rewrite bind_run, gets_run, Hp. Qed.

Lemma do_GET_search h :
  startswith_any (path h) PORTAL_PATH_PREFIXES = false →
  startswith (path h) "/_search" = true →
  GET redirects h = proxy SEARCH_CLIENT_CLASS SEARCH_HOST "search" "GET" None h.
Proof. intros Hp Hs. unfold do_GET. by rewrite bind_run, gets_run, Hp, Hs. Qed.

Lemma do_GET_redirect h target :
  startswith_any (path h) PORTAL_PATH_PREFIXES = false →
  startswith (path h) "/_search" = false →
  redirects !! path h = Some target → target ≠ "" →
  GET redirects h =
    (record h [send_response_ev 302;
               send_header_ev "Location"
                 ("http://" +:+ sockname.1 +:+ ":" +:+ of_N sockname.2 +:+ target);
               end_headers_ev],
     Returned tt).
Proof.
  intros Hp Hs Hr Hne. unfold do_GET. rewrite bind_run, gets_run, Hp, Hs.
  cbv zeta. rewrite Hr. destruct target as [|a t]; [done|]. cbn [truthy default].
  unfold send_response, send_header, end_headers.
  rewrite bind_run, emit_run, bind_run, !emit_run, !record_record.
  reflexivity.
Qed.

Lemma search_prefix_not_portal p :
  startswith p "/_search" = true → startswith_any p PORTAL_PATH_PREFIXES = false.
Proof. intros [rest ->]%startswith_spec. reflexivity. Qed.

Lemma search_prefix_not_auth p :
  startswith p "/_search" = true → p ≠ AUTH_PATH_PREFIX.
Proof. intros [rest ->]%startswith_spec. discriminate. Qed.

Lemma portal_prefix_routed p :
  startswith p "/_portal" = true → startswith_any p PORTAL_PATH_PREFIXES = true.
Proof. intros [rest ->]%startswith_spec. reflexivity. Qed.

Lemma portal_prefix_not_auth p :
  startswith p "/_portal" = true → p ≠ AUTH_PATH_PREFIX.
Proof. intros [rest ->]%startswith_spec. discriminate. Qed.

Lemma do_POST_other h :
  path h ≠ AUTH_PATH_PREFIX → POST h = (h, Returned tt).
Proof.
  intros Hne. unfold do_POST. rewrite bind_run, gets_run.
  by rewrite decide_False.
Qed.

Lemma do_GET_static h :
  startswith_any (path h) PORTAL_PATH_PREFIXES = false →
  startswith (path h) "/_search" = false →
  truthy (redirects !! path h) = false →
  ∃ p, GET redirects h =
         SimpleHTTPRequestHandler_do_GET DIR isdir exists_ unquote_surrogatepass
           unquote (with_path h p)
       ∧ (p = path h ∨ p = path h +:+ ".html").
Proof.
  intros Hp Hs Hr. unfold do_GET. rewrite bind_run, gets_run, Hp, Hs.
  cbv zeta. rewrite Hr. rewrite bind_run.
  assert (with_path h (path h) = h) as Hid by (by destruct h).
  destruct (endswith (path h) "/").
  - rewrite ret_run, bind_run, ret_run. exists (path h). by rewrite Hid; auto.
  - destruct (contains "." (path h)) eqn:Hdot; cbn [negb].
    + rewrite bind_run, lift_run.
      destruct (getitem (rsplit1 "." (path h)) 1) as [suffix|e] eqn:Hsuf.
      * rewrite ret_run. destruct (bool_decide (suffix ∉ filetypes)).
        -- rewrite bind_run. exists (path h +:+ ".html"). split; [done|by right].
        -- rewrite bind_run, ret_run. exists (path h). by rewrite Hid; auto.
      * apply contains_last in Hdot as (pre & suf & Hpath & Hc).
        rewrite Hpath, (rsplit1_last _ _ _ Hc) in Hsuf. done.
    + rewrite ret_run, bind_run. exists (path h +:+ ".html"). split; [done|by right].
Qed.

(** ** Routing and the default extension *)

(** C3: a GET whose path matches no proxy prefix and no redirect entry,
    does not end with a slash, and either has no dot or has after its last
    dot a suffix that is not a recognized file type, is served from the
    path with [.html] appended: [self.path] becomes [P + ".html"] and the
    base class resolves the file from exactly that path. *)
Theorem do_GET_default_extension (h : handler) :
  (∀ prefix rest, prefix ∈ PORTAL_PATH_PREFIXES ++ ["/_search"] →
                  path h ≠ prefix +:+ rest) →
  redirects !! path h = None →
  (∀ pre, path h ≠ pre +:+ "/") →
  ((∀ pre suf, path h ≠ pre +:+ "." +:+ suf)
   ∨ (∃ pre suf, path h = pre +:+ "." +:+ suf
                 ∧ (∀ a b, suf ≠ a +:+ "." +:+ b) ∧ suf ∉ filetypes)) →
  GET redirects h =
    match resolve (path h +:+ ".html") with
    | Returned f =>
        (record (with_path h (path h +:+ ".html")) [serve_file_ev f], Returned tt)
    | Raised e => (with_path h (path h +:+ ".html"), Raised e)
    end.
Proof.
  intros Hprefix Hredirect Hslash Hext.
  assert (startswith_any (path h) PORTAL_PATH_PREFIXES = false) as Hp.
  { unfold startswith_any. apply not_true_is_false.
    intros (p & Hin & Hs)%existsb_exists.
    apply startswith_spec in Hs as [rest Hs].
    apply (Hprefix p rest); [|done].
    apply elem_of_app. left. by apply list_elem_of_In. }
  assert (startswith (path h) "/_search" = false) as Hs.
  { apply startswith_false. intros rest. apply Hprefix.
    apply elem_of_app. right. by left. }
  unfold do_GET. rewrite bind_run, gets_run, Hp, Hs. cbv zeta.
  rewrite Hredirect. cbn [truthy]. rewrite bind_run.
  rewrite (endswith_false _ _ Hslash).
  assert (∀ m : M bool, m h = (h, Returned true) →
            (m ≫= λ no_filetype : bool,
               (if no_filetype then set_path (path h +:+ ".html") else mret tt);;
               SimpleHTTPRequestHandler_do_GET DIR isdir exists_
                 unquote_surrogatepass unquote) h
            = SimpleHTTPRequestHandler_do_GET DIR isdir exists_
                unquote_surrogatepass unquote (with_path h (path h +:+ ".html")))
    as Hthen.
  { intros m Hm. rewrite bind_run, Hm, bind_run. reflexivity. }
  transitivity (SimpleHTTPRequestHandler_do_GET DIR isdir exists_
                  unquote_surrogatepass unquote (with_path h (path h +:+ ".html")));
    [|by rewrite static_run].
  rewrite <- bind_run. apply Hthen.
  destruct Hext as [Hnodot|(pre & suf & Hpath & Hsufdot & Hsuf)].
  - rewrite (contains_false _ _ Hnodot). reflexivity.
  - assert (contains "." suf = false) as Hc by (by apply contains_false).
    assert (contains "." (path h) = true) as Hd
      by (apply contains_spec; by exists pre, suf).
    rewrite Hd. cbn [negb]. rewrite bind_run, lift_run.
    rewrite Hpath. change ("." +:+ suf) with (String "." suf).
    rewrite (rsplit1_last _ _ _ Hc). cbn [getitem lookup list_lookup].
    rewrite ret_run. by rewrite bool_decide_eq_true_2.
Qed.

(** ** A target that is not configured *)

(** C5: whenever [_proxy] is called for a target that is not configured --
    whatever the method, the body and the request --, the handler sends
    status 400, ends the headers and writes a plain message that names the
    flag [--<name>-proxy-url], and makes no call on any upstream
    connection; this is what a GET under a portal prefix gets when the
    portal is not configured, and a GET under the search prefix when the
    search target is not. *)
Theorem proxy_not_configured_400 (h : handler) :
  (∀ host name method body,
     proxy None host name method body h
     = (record h (not_configured_response name), Returned tt)
     ∧ omap upstream_of (not_configured_response name) = []
     ∧ ∃ pre post,
         last (not_configured_response name)
         = Some (wfile_write_ev (pre +:+ "--" +:+ name +:+ "-proxy-url" +:+ post)))
  ∧ (PORTAL_CLIENT_CLASS = None →
     (∃ prefix rest, prefix ∈ PORTAL_PATH_PREFIXES ∧ path h = prefix +:+ rest) →
     GET redirects h = (record h (not_configured_response "portal"), Returned tt))
  ∧ (SEARCH_CLIENT_CLASS = None →
     (∃ rest, path h = "/_search" +:+ rest) →
     GET redirects h = (record h (not_configured_response "search"), Returned tt)).
Proof.
  split; [|split].
  - intros host name method body. split; [apply proxy_unconfigured|].
    split; [reflexivity|].
    exists ("Local server not configured to proxy " +:+ name
            +:+ ". Please run with the " +:+ dquote), (dquote +:+ " flag ").
    cbn [not_configured_response last]. do 2 f_equal.
    rewrite !str_app_assoc. reflexivity.
  - intros Hnone (prefix & rest & Hin & Hpath).
    rewrite do_GET_portal, Hnone; [apply proxy_unconfigured|].
    unfold startswith_any. apply existsb_exists. exists prefix.
    split; [by apply list_elem_of_In|]. apply startswith_spec. eauto.
  - intros Hnone [rest Hpath].
    assert (startswith (path h) "/_search" = true) as Hs
      by (apply startswith_spec; eauto).
    rewrite do_GET_search, Hnone; [apply proxy_unconfigured| |done].
    by apply search_prefix_not_portal.
Qed.

(** ** Redirects *)

(** C6, amended: the lookup key is the raw request path.  For every entry
    [(S, T)] of the table with a non-empty [T], a GET whose raw path is [S]
    and matches no proxy prefix gets status 302 with
    [Location: http://<bound address>:<bound port><T>]; and an entry for
    [S] changes nothing for a request whose path differs from [S]. *)
Theorem redirect_exact_match (S T : string) (h h' : handler) :
  (path h = S → redirects !! S = Some T → T ≠ "" →
   (∀ prefix rest, prefix ∈ PORTAL_PATH_PREFIXES ++ ["/_search"] →
                   S ≠ prefix +:+ rest) →
   GET redirects h =
     (record h [send_response_ev 302;
                send_header_ev "Location"
                  ("http://" +:+ sockname.1 +:+ ":" +:+ of_N sockname.2 +:+ T);
                end_headers_ev],
      Returned tt))
  ∧ (path h' ≠ S → GET (<[S := T]> redirects) h' = GET redirects h').
Proof.
  split.
  - intros Hpath Hentry HT Hprefix. subst S.
    apply do_GET_redirect; [| |done..].
    + unfold startswith_any. apply not_true_is_false.
      intros (p & Hin & Hs)%existsb_exists.
      apply startswith_spec in Hs as [rest Hs].
      apply (Hprefix p rest); [|done].
      apply elem_of_app. left. by apply list_elem_of_In.
    + apply startswith_false. intros rest. apply Hprefix.
      apply elem_of_app. right. by left.
  - intros Hne. unfold do_GET. rewrite !bind_run, !gets_run. cbv zeta.
    by rewrite lookup_insert_ne.
Qed.

(** ** Which upstream a request can reach *)

(** C8: routing is by prefix, in a fixed order.  A GET under [/_search] is
    the search proxy call and every call it makes on an upstream connection
    is on the search target's; a GET under [/_portal] is the portal proxy
    call and its calls are on the portal target's; a POST under either
    prefix does nothing.  The order: the portal prefixes first (whatever
    the redirect table says), then the search prefix, then a redirect
    entry, then the static file handler. *)
Theorem role_selection_exclusive (h : handler) :
  ((∃ rest, path h = "/_search" +:+ rest) →
     GET redirects h = proxy SEARCH_CLIENT_CLASS SEARCH_HOST "search" "GET" None h
     ∧ POST h = (h, Returned tt)
     ∧ ∃ evs, (GET redirects h).1 = record h evs
              ∧ ∀ c, Some c ∈ upstream_of <$> evs →
                     client_of SEARCH_CLIENT_CLASS SEARCH_HOST c)
  ∧ ((∃ rest, path h = "/_portal" +:+ rest) →
     GET redirects h = proxy PORTAL_CLIENT_CLASS PORTAL_HOST "portal" "GET" None h
     ∧ POST h = (h, Returned tt)
     ∧ ∃ evs, (GET redirects h).1 = record h evs
              ∧ ∀ c, Some c ∈ upstream_of <$> evs →
                     client_of PORTAL_CLIENT_CLASS PORTAL_HOST c)
  ∧ (startswith_any (path h) PORTAL_PATH_PREFIXES = true →
     GET redirects h = proxy PORTAL_CLIENT_CLASS PORTAL_HOST "portal" "GET" None h)
  ∧ (startswith_any (path h) PORTAL_PATH_PREFIXES = false →
     startswith (path h) "/_search" = true →
     GET redirects h = proxy SEARCH_CLIENT_CLASS SEARCH_HOST "search" "GET" None h)
  ∧ (startswith_any (path h) PORTAL_PATH_PREFIXES = false →
     startswith (path h) "/_search" = false →
     ∀ target, redirects !! path h = Some target → target ≠ "" →
     ∃ location,
       GET redirects h =
         (record h [send_response_ev 302; send_header_ev "Location" location;
                    end_headers_ev], Returned tt))
  ∧ (startswith_any (path h) PORTAL_PATH_PREFIXES = false →
     startswith (path h) "/_search" = false →
     truthy (redirects !! path h) = false →
     ∃ p, GET redirects h =
            SimpleHTTPRequestHandler_do_GET DIR isdir exists_
              unquote_surrogatepass unquote (with_path h p)).
Proof.
  repeat split.
  - apply do_GET_search; [apply search_prefix_not_portal|];
      by apply startswith_spec.
  - apply do_POST_other, search_prefix_not_auth. by apply startswith_spec.
  - rewrite do_GET_search;
      [apply proxy_upstream_calls|apply search_prefix_not_portal|];
      by apply startswith_spec.
  - apply do_GET_portal, portal_prefix_routed. by apply startswith_spec.
  - apply do_POST_other, portal_prefix_not_auth. by apply startswith_spec.
  - rewrite do_GET_portal; [apply proxy_upstream_calls|].
    apply portal_prefix_routed. by apply startswith_spec.
  - apply do_GET_portal.
  - apply do_GET_search.
  - intros Hp Hs target Ht Hne. eexists. by apply do_GET_redirect.
  - intros Hp Hs Ht. destruct (do_GET_static h Hp Hs Ht) as (p & Hg & _). eauto.
Qed.

(** ** POST *)

Lemma maxsize_eq : maxsize = 9223372036854775807.
Proof. reflexivity. Qed.

(** A POST to the authentication path whose Content-Length [read] accepts:
    the body is read, and the rest is the portal proxy call. *)
Lemma do_POST_authenticate h v n :
  path h = AUTH_PATH_PREFIX →
  Message_get (headers h) "Content-Length" = Some v →
  int_of_str v = Returned n →
  0 ≤ n ≤ maxsize - PyBytesObject_SIZE → can_allocate n = true →
  POST h = proxy PORTAL_CLIENT_CLASS PORTAL_HOST "portal" "POST"
             (Some (slice_to n (rfile h))) (after_read h (slice_to n (rfile h))).
Proof.
  intros Hpath Hv Hn Hrange Hmem. unfold do_POST. rewrite bind_run, gets_run.
  rewrite decide_True by done.
  rewrite bind_run, gets_run, bind_run, lift_run, Hv. cbn [int]. rewrite Hn.
  rewrite bind_run. unfold rfile_read.
  rewrite maxsize_eq in *. unfold PyBytesObject_SIZE in *.
  rewrite decide_False by lia. rewrite decide_False by lia.
  rewrite decide_False by lia. rewrite decide_False by lia.
  rewrite Hmem. reflexivity.
Qed.

(** C9: a POST to any path other than [/_api/authenticate] does nothing --
    nothing is sent, nothing is read, the handler returns.  A POST to that
    path with a Content-Length [n >= 0] that [read] can serve, and with the
    portal configured, reads [n] bytes (what is left, if less) off the
    connection, and the first thing it then does is [client.request] on the
    portal connection, with method POST, the request path, the outbound
    headers and the bytes read as body; when the request carries a Host
    header and the portal answers, the answer is relayed: its status code,
    its headers, its body. *)
Theorem do_POST_only_authenticate (h : handler) :
  (path h ≠ "/_api/authenticate" → POST h = (h, Returned tt))
  ∧ (path h = "/_api/authenticate" →
     ∀ v n cls c,
       Message_get (headers h) "Content-Length" = Some v →
       int_of_str v = Returned n →
       0 ≤ n ≤ maxsize - PyBytesObject_SIZE → can_allocate n = true →
       PORTAL_CLIENT_CLASS = Some cls → new_client cls PORTAL_HOST = Returned c →
       let body := String.substring 0 (Z.to_nat n) (rfile h) in
       let sent := client_request_ev c "POST" "/_api/authenticate"
                     (req_headers (headers h)) (Some body) in
       (∃ evs r, POST h = (record (after_read h body) (sent :: evs), r))
       ∧ ∀ resp,
           is_Some (Message_get (headers h) "Host") →
           upstream c "POST" "/_api/authenticate" (req_headers (headers h)) (Some body)
           = responds resp →
           POST h =
             (record (after_read h body)
                ([sent; client_getresponse_ev c; send_response_ev (code resp)]
                 ++ relayed (resp_headers resp)
                 ++ [end_headers_ev; copyfile_ev (resp_body resp)]),
              Returned tt)).
Proof.
  split; [apply do_POST_other|].
  intros Hpath v n cls c Hv Hn Hrange Hmem Hcls Hc body sent.
  rewrite (do_POST_authenticate h v n Hpath Hv Hn Hrange Hmem), Hcls.
  change (slice_to n (rfile h)) with body. split.
  - destruct (proxy_request_first cls PORTAL_HOST c "portal" "POST" (Some body)
                (after_read h body) Hc) as (evs & r & Hrun).
    exists evs, r. rewrite Hrun. unfold sent. cbn [path headers after_read].
    by rewrite Hpath.
  - intros resp Hhost Hup.
    rewrite (proxy_configured _ _ _ _ _ _ _ _ Hc). cbv zeta.
    cbn [path headers after_read]. rewrite Hpath.
    change (putrequest "POST" "/_api/authenticate") with (Returned tt).
    rewrite bool_decide_eq_true_2 by (by apply req_headers_no_None).
    change (sent_body "POST" (Some body)) with (Some body).
    rewrite Hup, record_record. reflexivity.
Qed.

(** ** The outbound request *)

(** C10: the outbound request of every proxied request carries
    [X-Forwarded-For: self.address_string()], the literal text; two
    requests, whatever their client addresses, carry the same value. *)
Theorem forwarded_for_literal cls host c name method body (h1 h2 : handler) :
  new_client cls host = Returned c →
  ∃ hs1 b1 evs1 r1 hs2 b2 evs2 r2,
    proxy (Some cls) host name method body h1
    = (record h1 (client_request_ev c method (path h1) hs1 b1 :: evs1), r1)
    ∧ proxy (Some cls) host name method body h2
      = (record h2 (client_request_ev c method (path h2) hs2 b2 :: evs2), r2)
    ∧ hs1 !! "X-Forwarded-For" = Some (Some "self.address_string()")
    ∧ hs2 !! "X-Forwarded-For" = hs1 !! "X-Forwarded-For".
Proof.
  intros Hc.
  destruct (proxy_request_first _ _ _ name method body h1 Hc) as (evs1 & r1 & H1).
  destruct (proxy_request_first _ _ _ name method body h2 Hc) as (evs2 & r2 & H2).
  do 8 eexists. split; [exact H1|]. split; [exact H2|].
  by rewrite !req_headers_lookup.
Qed.

End Routing.

(** Hypotheses on a concrete path, from the tests the code makes. *)
Lemma no_prefix_intro (p : string) (ps : list string) :
  existsb (startswith p) ps = false →
  ∀ prefix rest, prefix ∈ ps → p ≠ prefix +:+ rest.
Proof.
  intros Hex prefix rest Hin Hp.
  assert (existsb (startswith p) ps = true); [|congruence].
  apply existsb_exists. exists prefix. split; [by apply list_elem_of_In|].
  apply startswith_spec. eauto.
Qed.

Lemma no_suffix_intro (p suffix : string) :
  endswith p suffix = false → ∀ pre, p ≠ pre +:+ suffix.
Proof.
  intros He pre Hp. assert (endswith p suffix = true); [|congruence].
  apply endswith_spec. eauto.
Qed.

Lemma no_char_intro (c : ascii) (p : string) :
  contains c p = false → ∀ pre suf, p ≠ pre +:+ String c suf.
Proof. intros Hc pre suf. by apply contains_false_inv. Qed.

(** ** The failure path of [_proxy] *)

(** C1, on the code: the search target is [http://search.example.org] and
    [getresponse] fails.  The handler makes one request and one
    [getresponse] call, sends status 500 and ends the headers -- and then
    [urlunsplit], called with four components, raises [ValueError]: no
    body is written.  When it is [client.request] that fails (the
    connection is refused), the exception leaves [_proxy] before anything
    is sent to the client. *)
Theorem proxy_failure_writes_no_body :
  let h := request "/_search?q=law" [("Host", "localhost:8000")] "" in
  let c := {| client_class := HTTPConnection; client_host := "search.example.org";
              client_port := 80 |} in
  serve None (Some HTTPConnection) ∅ (always getresponse_raises) h
  = (record h [client_request_ev c "GET" "/_search?q=law"
                 (req_headers [("Host", "localhost:8000")]) None;
               client_getresponse_ev c;
               send_response_ev 500; end_headers_ev],
     Raised ValueError)
  ∧ serve None (Some HTTPConnection) ∅ (always request_raises) h
    = (record h [client_request_ev c "GET" "/_search?q=law"
                   (req_headers [("Host", "localhost:8000")]) None],
       Raised TransportError).
Proof. split; vm_compute; reflexivity. Qed.

(** ** The relayed response *)

(** C2, on the code: the search upstream answers 200 with the headers
    [content-type], [transfer-encoding] and [connection], spelled in lower
    case.  The handler relays the status code and all three headers, the
    two connection-specific ones included, and copies the body; with the
    same two headers spelled [Transfer-Encoding] and [Connection] it leaves
    them out. *)
Theorem relay_keeps_lowercase_transfer_encoding :
  let h := request "/_search?q=law" [("Host", "localhost:8000")] "" in
  let c := {| client_class := HTTPConnection; client_host := "search.example.org";
              client_port := 80 |} in
  let answer te cn :=
    responds {| code := 200;
                resp_headers := [("content-type", "text/html"); (te, "chunked");
                                 (cn, "close")];
                resp_body := "<html></html>" |} in
  let asked := client_request_ev c "GET" "/_search?q=law"
                 (req_headers [("Host", "localhost:8000")]) None in
  serve None (Some HTTPConnection) ∅ (always (answer "transfer-encoding" "connection")) h
  = (record h [asked; client_getresponse_ev c;
               send_response_ev 200;
               send_header_ev "content-type" "text/html";
               send_header_ev "transfer-encoding" "chunked";
               send_header_ev "connection" "close";
               end_headers_ev; copyfile_ev "<html></html>"],
     Returned tt)
  ∧ serve None (Some HTTPConnection) ∅ (always (answer "Transfer-Encoding" "Connection")) h
    = (record h [asked; client_getresponse_ev c;
                 send_response_ev 200;
                 send_header_ev "content-type" "text/html";
                 end_headers_ev; copyfile_ev "<html></html>"],
       Returned tt).
Proof. split; vm_compute; reflexivity. Qed.

(** ** The outbound headers of a request *)

(** C7, on the code: the browser spells its Host header [host].  The
    outbound request to the portal carries that header still, next to
    [X-Forwarded-Host] with the same value: the lookup for
    [X-Forwarded-Host] ignores letter case, the removal of [Host] does
    not.  So the outbound headers are not the inbound ones without the
    Host header and with the three forwarding headers; spelled [Host], the
    header is removed and they are. *)
Theorem lowercase_host_forwarded :
  let msg := [("host", "localhost:8000"); ("Accept", "*/*")] in
  let h := request "/_portal/login" msg "" in
  let c := {| client_class := HTTPSConnection; client_host := "portal.example.org";
              client_port := 443 |} in
  let ok := {| code := 200; resp_headers := []; resp_body := "ok" |} in
  serve (Some HTTPSConnection) None ∅ (always (responds ok)) h
  = (record h [client_request_ev c "GET" "/_portal/login" (req_headers msg) None;
               client_getresponse_ev c;
               send_response_ev 200; end_headers_ev; copyfile_ev "ok"],
     Returned tt)
  ∧ req_headers msg !! "host" = Some (Some "localhost:8000")
  ∧ req_headers msg !! "X-Forwarded-Host" = Some (Some "localhost:8000")
  ∧ req_headers msg ≠ claimed_req_headers msg
  ∧ req_headers [("Host", "localhost:8000"); ("Accept", "*/*")]
    = claimed_req_headers [("Host", "localhost:8000"); ("Accept", "*/*")].
Proof.
  split; [vm_compute; reflexivity|].
  split; [reflexivity|]. split; [reflexivity|]. split.
  - intros Heq.
    apply (f_equal (λ m : gmap string (option string), m !! "host")) in Heq.
    vm_compute in Heq. discriminate.
  - vm_compute. reflexivity.
Qed.

(** ** Redirects with an empty target *)

(** C6 as stated fails: the table has the entry [("/foo", "")], the path is
    [/foo], and the answer is not a redirect: the request goes on to the
    static file handler, as [/foo.html]. *)
Lemma redirect_empty_target_not_followed :
  ({["/foo" := ""]} : gmap string string) !! "/foo" = Some ""
  ∧ serve None None {["/foo" := ""]} (always request_raises) (request "/foo" [] "")
    = (record (with_path (request "/foo" [] "") "/foo.html")
         [serve_file_ev "/srv/law-html/foo.html"], Returned tt)
  ∧ ¬ (∃ location,
         trace (serve None None {["/foo" := ""]} (always request_raises)
                  (request "/foo" [] "")).1
         = [send_response_ev 302; send_header_ev "Location" location; end_headers_ev]).
Proof.
  split; [reflexivity|]. split; [vm_compute; reflexivity|].
  intros [location Hloc]. vm_compute in Hloc. discriminate.
Qed.

(** ** The theorems at concrete requests *)

Lemma do_GET_default_extension_witness :
  serve None None ∅ (always request_raises) (request "/statutes/title-1.2" [] "")
  = (record (with_path (request "/statutes/title-1.2" [] "") "/statutes/title-1.2.html")
       [serve_file_ev "/srv/law-html/statutes/title-1.2.html"], Returned tt).
Proof.
  apply (do_GET_default_extension "/srv/law-html" no_file no_file
           (λ s, Some (percent_decode s)) percent_decode None None None None
           ∅ ("127.0.0.1", 8000%N) (always request_raises)
           (request "/statutes/title-1.2" [] "")).
  - apply no_prefix_intro. reflexivity.
  - reflexivity.
  - apply no_suffix_intro. reflexivity.
  - right. exists "/statutes/title-1", "2". split; [reflexivity|].
    split; [apply no_char_intro; reflexivity|].
    apply (bool_decide_unpack ("2" ∉ filetypes)). vm_compute. exact I.
Defined.

Lemma proxy_not_configured_400_witness :
  serve None None ∅ (always request_raises) (request "/_api/laws" [] "")
  = (record (request "/_api/laws" [] "") (not_configured_response "portal"),
     Returned tt)
  ∧ serve None None ∅ (always request_raises) (request "/_search?q=law" [] "")
    = (record (request "/_search?q=law" [] "") (not_configured_response "search"),
       Returned tt).
Proof.
  split.
  - apply (proxy_not_configured_400 "/srv/law-html" no_file no_file
             (λ s, Some (percent_decode s)) percent_decode None None None None
             ∅ ("127.0.0.1", 8000%N) (always request_raises)
             (request "/_api/laws" [] "")); [reflexivity|].
    exists "/_api", "/laws". split; [|reflexivity]. right. left.
  - apply (proxy_not_configured_400 "/srv/law-html" no_file no_file
             (λ s, Some (percent_decode s)) percent_decode None None None None
             ∅ ("127.0.0.1", 8000%N) (always request_raises)
             (request "/_search?q=law" [] "")); [reflexivity|].
    by exists "?q=law".
Defined.

Lemma redirect_exact_match_witness :
  serve None None {["/foo" := "/bar"]} (always request_raises) (request "/foo" [] "")
  = (record (request "/foo" [] "")
       [send_response_ev 302; send_header_ev "Location" "http://127.0.0.1:8000/bar";
        end_headers_ev], Returned tt)
  ∧ serve None None (<["/foo" := "/bar"]> ∅) (always request_raises)
      (request "/foo/" [] "")
    = serve None None ∅ (always request_raises) (request "/foo/" [] "").
Proof.
  split.
  - apply (redirect_exact_match "/srv/law-html" no_file no_file
             (λ s, Some (percent_decode s)) percent_decode None None None None
             {["/foo" := "/bar"]} ("127.0.0.1", 8000%N) (always request_raises)
             "/foo" "/bar" (request "/foo" [] "") (request "/foo/" [] ""));
      [reflexivity|reflexivity|discriminate|].
    apply no_prefix_intro. reflexivity.
  - apply (redirect_exact_match "/srv/law-html" no_file no_file
             (λ s, Some (percent_decode s)) percent_decode None None None None
             ∅ ("127.0.0.1", 8000%N) (always request_raises)
             "/foo" "/bar" (request "/foo" [] "") (request "/foo/" [] "")).
    discriminate.
Defined.

Lemma role_selection_exclusive_witness :
  serve (Some HTTPSConnection) (Some HTTPConnection) ∅ (always request_raises)
    (request "/_search/x" [("Host", "localhost:8000")] "")
  = _proxy (always request_raises) (Some HTTPConnection) (Some "search.example.org")
      "search" "GET" None (request "/_search/x" [("Host", "localhost:8000")] "")
  ∧ serve (Some HTTPSConnection) (Some HTTPConnection) ∅ (always request_raises)
      (request "/_portal/x" [("Host", "localhost:8000")] "")
    = _proxy (always request_raises) (Some HTTPSConnection) (Some "portal.example.org")
        "portal" "GET" None (request "/_portal/x" [("Host", "localhost:8000")] "").
Proof.
  split.
  - destruct (role_selection_exclusive "/srv/law-html" no_file no_file
                (λ s, Some (percent_decode s)) percent_decode
                (Some HTTPSConnection) (Some "portal.example.org")
                (Some HTTPConnection) (Some "search.example.org")
                ∅ ("127.0.0.1", 8000%N) (always request_raises) (memory_of 65536)
                (request "/_search/x" [("Host", "localhost:8000")] ""))
      as [Hsearch _].
    destruct Hsearch as [Hget _]; [by exists "/x"|exact Hget].
  - destruct (role_selection_exclusive "/srv/law-html" no_file no_file
                (λ s, Some (percent_decode s)) percent_decode
                (Some HTTPSConnection) (Some "portal.example.org")
                (Some HTTPConnection) (Some "search.example.org")
                ∅ ("127.0.0.1", 8000%N) (always request_raises) (memory_of 65536)
                (request "/_portal/x" [("Host", "localhost:8000")] ""))
      as (_ & Hportal & _).
    destruct Hportal as [Hget _]; [by exists "/x"|exact Hget].
Defined.

Lemma do_POST_only_authenticate_witness :
  let portal := {| client_class := HTTPSConnection; client_host := "portal.example.org";
                   client_port := 443 |} in
  let msg := [("Host", "localhost:8000"); ("content-length", "3")] in
  let answer := {| code := 200; resp_headers := [("Set-Cookie", "sid=1")];
                   resp_body := "{}" |} in
  do_POST None None (always request_raises) (memory_of 65536)
    (request "/_api/laws" [("Content-Length", "3")] "a=b")
  = (request "/_api/laws" [("Content-Length", "3")] "a=b", Returned tt)
  ∧ do_POST (Some HTTPSConnection) (Some "portal.example.org")
      (always (responds answer)) (memory_of 65536)
      (request "/_api/authenticate" msg "a=b&c")
    = (record (request "/_api/authenticate" msg "&c")
         [client_request_ev portal "POST" "/_api/authenticate" (req_headers msg)
            (Some "a=b");
          client_getresponse_ev portal;
          send_response_ev 200; send_header_ev "Set-Cookie" "sid=1";
          end_headers_ev; copyfile_ev "{}"],
       Returned tt).
Proof.
  intros portal msg answer. split.
  - apply (do_POST_only_authenticate None None (always request_raises) (memory_of 65536)
             (request "/_api/laws" [("Content-Length", "3")] "a=b")).
    discriminate.
  - destruct (do_POST_only_authenticate (Some HTTPSConnection) (Some "portal.example.org")
                (always (responds answer)) (memory_of 65536)
                (request "/_api/authenticate" msg "a=b&c")) as [_ Hauth].
    destruct (Hauth eq_refl "3" 3 HTTPSConnection portal) as [_ Hrelay];
      [reflexivity|reflexivity|rewrite maxsize_eq; unfold PyBytesObject_SIZE; lia
      |reflexivity|reflexivity|reflexivity|].
    apply (Hrelay answer); [by eexists|reflexivity].
Defined.

Lemma forwarded_for_literal_witness :
  ∃ hs1 b1 evs1 r1 hs2 b2 evs2 r2,
    _proxy (always request_raises) (Some HTTPSConnection) (Some "portal.example.org")
      "portal" "GET" None (request "/_portal/x" [("Host", "localhost:8000")] "")
    = (record (request "/_portal/x" [("Host", "localhost:8000")] "")
         (client_request_ev
            {| client_class := HTTPSConnection; client_host := "portal.example.org";
               client_port := 443 |} "GET" "/_portal/x" hs1 b1 :: evs1), r1)
    ∧ _proxy (always request_raises) (Some HTTPSConnection) (Some "portal.example.org")
        "portal" "GET" None
        (request_from ("10.0.0.7", 40000%N) "/_portal/y" [("Host", "law.example.org")] "")
      = (record (request_from ("10.0.0.7", 40000%N) "/_portal/y"
                   [("Host", "law.example.org")] "")
           (client_request_ev
              {| client_class := HTTPSConnection; client_host := "portal.example.org";
                 client_port := 443 |} "GET" "/_portal/y" hs2 b2 :: evs2), r2)
    ∧ hs1 !! "X-Forwarded-For" = Some (Some "self.address_string()")
    ∧ hs2 !! "X-Forwarded-For" = hs1 !! "X-Forwarded-For".
Proof.
  apply (forwarded_for_literal (always request_raises) HTTPSConnection
           (Some "portal.example.org")
           {| client_class := HTTPSConnection; client_host := "portal.example.org";
              client_port := 443 |} "portal" "GET" None
           (request "/_portal/x" [("Host", "localhost:8000")] "")
           (request_from ("10.0.0.7", 40000%N) "/_portal/y"
              [("Host", "law.example.org")] "")).
  reflexivity.
Defined.

(** * The path translator *)

(** ** Splitting and joining *)

Lemma split_cons_sep c s : split c (String c s) = "" :: split c s.
Proof. cbn [split]. by rewrite decide_True. Qed.

Lemma split_nonempty c s : ∃ w ws, split c s = w :: ws.
Proof.
  induction s as [|a s (w & ws & IH)]; [by exists "", []|].
  cbn [split]. destruct (decide (a = c)); [by eexists _, _|].
  rewrite IH. by eexists _, _.
Qed.

Lemma split1_nonempty c s : ∃ w ws, split1 c s = w :: ws.
Proof.
  induction s as [|a s (w & ws & IH)]; [by exists "", []|].
  cbn [split1]. destruct (decide (a = c)); [by eexists _, _|].
  rewrite IH. by eexists _, _.
Qed.

Lemma split_no_sep c s : contains c s = false → split c s = [s].
Proof.
  induction s as [|a s IH]; [done|]. cbn [contains split].
  destruct (decide (a = c)); [done|]. intros Hs. by rewrite (IH Hs).
Qed.

Lemma split_app c s t :
  contains c s = false → split c (s +:+ String c t) = s :: split c t.
Proof.
  induction s as [|a s IH]; cbn [contains].
  - intros _. rewrite str_app_nil_l. apply split_cons_sep.
  - destruct (decide (a = c)); [done|]. intros Hs.
    rewrite str_app_cons. cbn [split]. rewrite decide_False by done.
    by rewrite (IH Hs).
Qed.

(** The components that [split] returns have no separator in them. *)
Lemma split_contains c s : Forall (λ w, contains c w = false) (split c s).
Proof.
  induction s as [|a s IH]; [by repeat constructor|].
  cbn [split]. destruct (decide (a = c)) as [->|Hne].
  - by constructor.
  - destruct (split c s) as [|w ws].
    + repeat constructor. cbn [contains]. by rewrite decide_False.
    + inversion IH; subst. constructor; [|done].
      cbn [contains]. by rewrite decide_False.
Qed.

Lemma join_cons w ws :
  ws ≠ [] → join "/" (w :: ws) = w +:+ String "/" (join "/" ws).
Proof. by destruct ws. Qed.

Lemma join_snoc ws w :
  ws ≠ [] → join "/" (ws ++ [w]) = join "/" ws +:+ String "/" w.
Proof.
  induction ws as [|v ws IH]; [done|]. intros _.
  destruct ws as [|u ws]; [done|].
  change ((v :: u :: ws) ++ [w]) with (v :: (u :: ws) ++ [w]).
  rewrite join_cons by done. rewrite IH by done.
  rewrite (join_cons v) by done. by rewrite !str_app_assoc.
Qed.

Lemma join_app l1 l2 :
  l1 ≠ [] → l2 ≠ [] →
  join "/" (l1 ++ l2) = join "/" l1 +:+ String "/" (join "/" l2).
Proof.
  intros H1 H2. induction l1 as [|v l1 IH]; [done|].
  destruct l1 as [|u l1].
  - cbn [app]. by rewrite join_cons.
  - change ((v :: u :: l1) ++ l2) with (v :: (u :: l1) ++ l2).
    rewrite join_cons by done. rewrite IH by done.
    rewrite (join_cons v) by done. by rewrite !str_app_assoc.
Qed.

Lemma split_join ws :
  Forall (λ w, contains "/" w = false) ws → ws ≠ [] →
  split "/" (join "/" ws) = ws.
Proof.
  induction ws as [|w ws IH]; [done|]. intros Hall _.
  inversion Hall as [|? ? Hw Hws]; subst.
  destruct ws as [|v ws]; [by apply split_no_sep|].
  rewrite join_cons by done. rewrite split_app by done.
  by rewrite IH.
Qed.

Lemma split_join_slash ws :
  Forall (λ w, contains "/" w = false) ws → ws ≠ [] →
  split "/" (join "/" ws +:+ "/") = ws ++ [""].
Proof.
  intros Hall Hne.
  replace (join "/" ws +:+ "/") with (join "/" (ws ++ [""]))
    by (by rewrite join_snoc).
  apply split_join; [|by destruct ws].
  apply Forall_app. split; [done|by repeat constructor].
Qed.

(** ** [posixpath] on names *)

Lemma name_not_absolute w : contains "/" w = false → startswith w "/" = false.
Proof.
  destruct w as [|a w]; [done|]. cbn [contains startswith].
  destruct (decide (a = "/"%char)) as [->|Hne]; [done|].
  intros _. by rewrite decide_False.
Qed.

Lemma endswith_no_sep w : contains "/" w = false → endswith w "/" = false.
Proof.
  induction w as [|a w IH]; [done|]. cbn [contains endswith].
  destruct (decide (a = "/"%char)) as [->|Hne]; [done|]. intros Hw.
  rewrite decide_False by (intros [=]; done). by apply IH.
Qed.

Lemma endswith_app_name s w : name w → endswith (s +:+ w) "/" = false.
Proof.
  intros [Hne Hw]. induction s as [|a s IH].
  - by apply endswith_no_sep.
  - rewrite str_app_cons. cbn [endswith]. rewrite decide_False; [done|].
    intros [= _ Hnil]. by apply str_app_eq_nil in Hnil as [_ ?].
Qed.

Lemma abs_nil : abs [] = "/".
Proof. reflexivity. Qed.

Lemma abs_snoc d w : abs (d ++ [w]) = if decide (d = []) then "/" +:+ w
                                      else abs d +:+ String "/" w.
Proof.
  unfold abs. destruct (decide (d = [])) as [->|Hd]; [done|].
  rewrite join_snoc by done. by rewrite str_app_assoc.
Qed.

Lemma endswith_abs d :
  Forall name d → endswith (abs d) "/" = bool_decide (d = []).
Proof.
  intros Hd. destruct d as [|v d] using rev_ind; [done|].
  apply Forall_app in Hd as [_ Hw]. inversion Hw as [|? ? Hname _]; subst.
  rewrite bool_decide_eq_false_2 by (by destruct d).
  rewrite abs_snoc. destruct (decide (d = [])).
  - by apply endswith_app_name.
  - change (String "/" v) with ("/" +:+ v). rewrite <- str_app_assoc.
    by apply endswith_app_name.
Qed.

(** Joining a name onto an absolute path of names. *)
Lemma join2_abs d w :
  Forall name d → name w → posixpath.join2 (abs d) w = abs (d ++ [w]).
Proof.
  intros Hd [Hne Hw]. unfold posixpath.join2, posixpath.sep.
  rewrite (name_not_absolute _ Hw). rewrite (endswith_abs _ Hd).
  rewrite bool_decide_eq_false_2 by done. cbn [orb].
  rewrite abs_snoc. destruct (decide (d = [])) as [->|Hdne].
  - by rewrite bool_decide_eq_true_2.
  - by rewrite bool_decide_eq_false_2.
Qed.

Lemma rfind_no_sep c w : contains c w = false → rfind c w = -1.
Proof.
  induction w as [|a w IH]; [done|]. cbn [contains rfind].
  destruct (decide (a = c)); [done|]. intros Hw. rewrite (IH Hw).
  by rewrite decide_True.
Qed.

Lemma dirname_no_sep w : contains "/" w = false → posixpath.dirname w = "".
Proof.
  intros Hw. unfold posixpath.dirname. rewrite (rfind_no_sep _ _ Hw).
  by destruct w.
Qed.

(** The loop of [translate_path] keeps the plain words and joins them onto
    the root. *)
Lemma translate_loop d words :
  Forall name d → Forall name words →
  foldl (λ path word,
           if bool_decide (posixpath.dirname word ≠ "")
              || bool_decide (word ∈ [posixpath.curdir; posixpath.pardir])
           then path
           else posixpath.join path [word])
        (abs d) words
  = abs (d ++ kept words).
Proof.
  intros Hd Hwords. revert d Hd.
  induction Hwords as [|w words Hw _ IH]; intros d Hd.
  - by rewrite app_nil_r.
  - cbn [foldl]. unfold kept. rewrite filter_cons.
    rewrite (dirname_no_sep w) by apply Hw.
    rewrite bool_decide_eq_false_2 by (by intros ?). cbn [orb].
    destruct (decide (w ∉ [posixpath.curdir; posixpath.pardir])) as [Hk|Hk].
    + rewrite bool_decide_eq_false_2 by done.
      cbn [posixpath.join foldl]. rewrite join2_abs by done.
      rewrite IH by (apply Forall_app; split; [done|constructor; [done|constructor]]).
      by rewrite <- app_assoc.
    + rewrite bool_decide_eq_true_2 by (by apply dec_stable). by apply IH.
Qed.

Lemma kept_plain words : Forall name words → Forall plain (kept words).
Proof.
  intros Hw. unfold kept. apply Forall_forall. intros w [Hk Hin]%list_elem_of_filter.
  rewrite Forall_forall in Hw. split; [by apply Hw|].
  split; intros ->; apply Hk; [left|right; left].
Qed.

(** The non-empty components of any string are names. *)
Lemma words_names s : Forall name (filter (λ w, w ≠ "") (split "/" s)).
Proof.
  apply Forall_forall. intros w [Hne Hin]%list_elem_of_filter.
  split; [done|]. pose proof (split_contains "/" s) as Hall.
  rewrite Forall_forall in Hall. by apply Hall.
Qed.

Lemma plain_name w : plain w → name w.
Proof. by intros [? _]. Qed.

Lemma Forall_plain_name l : Forall plain l → Forall name l.
Proof. intros Hl. eapply Forall_impl; [exact Hl|apply plain_name]. Qed.

Lemma Forall_name_no_sep l : Forall name l → Forall (λ w, contains "/" w = false) l.
Proof. intros Hl. eapply Forall_impl; [exact Hl|]. by intros w [_ ?]. Qed.

Lemma filter_names l : Forall name l → filter (λ x, x ≠ "") l = l.
Proof.
  induction 1 as [|w l [Hne _] _ IH]; [done|].
  by rewrite filter_cons_True, IH.
Qed.

Lemma normpath_step_plain n acc w :
  plain w → posixpath.normpath_step n acc w = acc ++ [w].
Proof.
  intros ([Hne _] & Hdot & Hdotdot). unfold posixpath.normpath_step.
  rewrite bool_decide_eq_false_2.
  - by rewrite (bool_decide_eq_true_2 (w ≠ posixpath.pardir)).
  - intros [?|[?|[]%elem_of_nil]%elem_of_cons]%elem_of_cons; done.
Qed.

Lemma normpath_step_empty n acc : posixpath.normpath_step n acc "" = acc.
Proof.
  unfold posixpath.normpath_step. by rewrite bool_decide_eq_true_2 by left.
Qed.

Lemma normpath_fold_plain n acc l :
  Forall plain l → foldl (posixpath.normpath_step n) acc l = acc ++ l.
Proof.
  intros Hl. revert acc. induction Hl as [|w l Hw _ IH]; intros acc.
  - by rewrite app_nil_r.
  - cbn [foldl]. rewrite normpath_step_plain by done.
    by rewrite IH, <- app_assoc.
Qed.

Lemma abs_absolute l tail : startswith (abs l +:+ tail) "/" = true.
Proof.
  apply startswith_spec. exists (join "/" l +:+ tail).
  unfold abs. by rewrite str_app_assoc.
Qed.

(** [normpath] leaves an absolute path of plain components as it is, but
    for a slash at its end. *)
Lemma normpath_abs l tail :
  Forall plain l → l ≠ [] → tail = "" ∨ tail = "/" →
  posixpath.normpath (abs l +:+ tail) = abs l.
Proof.
  intros Hl Hne Htail. destruct l as [|w l]; [done|].
  inversion Hl as [|? ? Hw Hl']; subst.
  destruct Hw as ([Hwne Hwsep] & Hwdot & Hwdotdot).
  destruct w as [|a w]; [done|].
  assert (a ≠ "/"%char) as Ha.
  { intros ->. cbn [contains] in Hwsep. by rewrite decide_True in Hwsep. }
  assert (∃ t, abs (String a w :: l) +:+ tail = String "/" (String a t)) as [t Ht].
  { unfold abs. destruct l; [|rewrite join_cons by done]; by eexists. }
  assert (split "/" (abs (String a w :: l) +:+ tail)
          = "" :: (String a w :: l) ++ (if decide (tail = "") then [] else [""]))
    as Hsplit.
  { assert (Forall (λ w, contains "/" w = false) (String a w :: l)) as Hsep
      by (by apply Forall_name_no_sep, Forall_plain_name).
    unfold abs. rewrite str_app_assoc.
    change ("/" +:+ ?x) with (String "/" x). rewrite split_cons_sep. f_equal.
    destruct Htail as [-> | ->].
    - rewrite str_app_nil_r, app_nil_r. by apply split_join.
    - by apply split_join_slash. }
  unfold posixpath.normpath. rewrite Hsplit, Ht. clear Hsplit.
  rewrite decide_False by done.
  assert (startswith (String "/" (String a t)) posixpath.sep = true) as -> by done.
  assert (startswith (String "/" (String a t)) (posixpath.str_mul posixpath.sep 2)
          = false) as ->.
  { change (posixpath.str_mul posixpath.sep 2) with "//". cbn [startswith].
    rewrite decide_True by done. by rewrite decide_False by (by intros <-). }
  cbn [andb foldl]. cbv zeta.
  rewrite normpath_step_empty.
  rewrite foldl_app, (normpath_fold_plain 1 [] (String a w :: l)) by done.
  assert (foldl (posixpath.normpath_step 1) ([] ++ String a w :: l)
            (if decide (tail = "") then [] else [""]) = String a w :: l) as ->.
  { destruct (decide (tail = "")); [done|]. cbn [foldl].
    by rewrite normpath_step_empty. }
  rewrite decide_False by done.
  change (posixpath.str_mul posixpath.sep 1 +:+ ?x) with ("/" +:+ x).
  by rewrite decide_False.
Qed.

(** The components that [relpath] works on. *)
Lemma abspath_components cwd l tail :
  Forall plain l → tail = "" ∨ tail = "/" →
  filter (λ x, x ≠ "") (split "/" (posixpath.abspath cwd (abs l +:+ tail))) = l.
Proof.
  intros Hl Htail. unfold posixpath.abspath, posixpath.isabs, posixpath.sep.
  rewrite abs_absolute. destruct (decide (l = [])) as [->|Hne].
  - by destruct Htail as [-> | ->].
  - rewrite normpath_abs by done. unfold abs.
    change ("/" +:+ ?x) with (String "/" x). rewrite split_cons_sep.
    rewrite split_join by (by try apply Forall_name_no_sep, Forall_plain_name).
    rewrite filter_cons_False by (by intros ?).
    by apply filter_names, Forall_plain_name.
Qed.

Lemma commonprefix_len_app d ws :
  posixpath.commonprefix_len d (d ++ ws) = length d.
Proof.
  induction d as [|v d IH]; [by destruct ws|].
  cbn [posixpath.commonprefix_len app length].
  by rewrite decide_True, IH.
Qed.

Lemma join_not_absolute ws :
  Forall name ws → startswith (join "/" ws) "/" = false.
Proof.
  intros Hws. destruct Hws as [|w ws [Hne Hw] _]; [done|].
  destruct w as [|a w]; [done|].
  cbn [contains] in Hw. destruct (decide (a = "/"%char)) as [|Ha]; [done|].
  assert (∃ t, join "/" (String a w :: ws) = String a t) as [t ->].
  { destruct ws; [|rewrite join_cons by done]; by eexists. }
  cbn [startswith]. by rewrite decide_False by (by intros <-).
Qed.

(** Joining a relative path of names onto an absolute path of names. *)
Lemma join2_abs_join d ws :
  Forall name d → Forall name ws → ws ≠ [] →
  posixpath.join2 (abs d) (join "/" ws) = abs (d ++ ws).
Proof.
  intros Hd Hws Hne. unfold posixpath.join2, posixpath.sep.
  rewrite (join_not_absolute _ Hws), (endswith_abs _ Hd).
  rewrite bool_decide_eq_false_2 by done. cbn [orb].
  destruct (decide (d = [])) as [->|Hdne].
  - by rewrite bool_decide_eq_true_2.
  - rewrite bool_decide_eq_false_2 by done. unfold abs.
    rewrite join_app by done. by rewrite !str_app_assoc.
Qed.

(** [join(a, *p)] on names is ['/'.join]. *)
Lemma join_names_from pre ws :
  pre ≠ [] → Forall name pre → Forall name ws →
  foldl posixpath.join2 (join "/" pre) ws = join "/" (pre ++ ws).
Proof.
  intros Hne Hpre Hws. revert pre Hne Hpre.
  induction Hws as [|v ws Hv Hws IH]; intros pre Hne Hpre.
  - by rewrite app_nil_r.
  - cbn [foldl].
    assert (posixpath.join2 (join "/" pre) v = join "/" (pre ++ [v])) as ->.
    { unfold posixpath.join2, posixpath.sep.
      rewrite (name_not_absolute v) by apply Hv.
      destruct pre as [|u pre _] using rev_ind; [done|].
      apply Forall_app in Hpre as [_ Hu]. inversion Hu as [|? ? Hname _]; subst.
      assert (endswith (join "/" (pre ++ [u])) "/" = false) as ->.
      { destruct (decide (pre = [])) as [->|Hp].
        - apply (endswith_app_name "" u Hname).
        - rewrite join_snoc by done.
          change (String "/" u) with ("/" +:+ u). rewrite <- str_app_assoc.
          by apply endswith_app_name. }
      rewrite bool_decide_eq_false_2.
      - cbn [orb]. by rewrite (join_snoc (pre ++ [u])) by (by destruct pre).
      - destruct Hname as [Hune _]. destruct (decide (pre = [])) as [->|Hp];
          [done|]. rewrite join_snoc by done.
        by intros [_ [=]]%str_app_eq_nil. }
    rewrite IH.
    + by rewrite <- app_assoc.
    + by destruct pre.
    + apply Forall_app. split; [done|]. constructor; [done|constructor].
Qed.

Lemma join_names w ws :
  Forall name (w :: ws) → posixpath.join w ws = join "/" (w :: ws).
Proof.
  intros Hall. inversion Hall as [|? ? Hw Hws]; subst.
  apply (join_names_from [w] ws); [done| |done].
  constructor; [done|constructor].
Qed.

(** [relpath] from the root to a path of plain components below it. *)
Lemma relpath_below cwd d ws tail :
  Forall plain d → Forall plain ws → tail = "" ∨ tail = "/" →
  posixpath.relpath cwd (abs (d ++ ws) +:+ tail) (abs d)
  = Returned (if decide (ws = []) then "." else join "/" ws).
Proof.
  intros Hd Hws Htail. unfold posixpath.relpath.
  rewrite decide_False.
  2:{ intros Hnil. pose proof (abs_absolute (d ++ ws) tail) as Habs.
      by rewrite Hnil in Habs. }
  cbv zeta.
  assert (filter (λ x, x ≠ "") (split "/" (posixpath.abspath cwd (abs d))) = d)
    as Hstart.
  { rewrite <- (str_app_nil_r (abs d)). by apply abspath_components; auto. }
  rewrite !Hstart.
  rewrite abspath_components by (by try apply Forall_app; auto).
  rewrite commonprefix_len_app, Nat.sub_diag, drop_app_length.
  cbn [replicate app]. destruct ws as [|w ws]; [done|].
  rewrite decide_False by done. rewrite join_names; [done|].
  by apply Forall_plain_name.
Qed.

(** ** Staying below the root *)

Lemma not_elem_of_names ws : Forall plain ws → ".." ∉ ws.
Proof.
  intros Hws Hin. rewrite Forall_forall in Hws.
  by destruct (Hws _ Hin) as (_ & _ & ?).
Qed.

Lemma under_abs d ws tail :
  Forall name d → Forall name ws → ".." ∉ ws → tail = "" ∨ tail = "/" →
  under (abs d) (abs (d ++ ws) +:+ tail).
Proof.
  intros Hd Hws Hdd Htail. unfold under.
  assert (Forall (λ w, contains "/" w = false) ws) as Hsep
    by (by apply Forall_name_no_sep).
  destruct (decide (ws = [])) as [->|Hne].
  - exists tail. rewrite app_nil_r. split; [done|].
    destruct Htail as [-> | ->].
    + split; [by left|]. cbn. by intros [[=]|[]%elem_of_nil]%elem_of_cons.
    + split; [by right; left|]. cbn.
      by intros [[=]|[[=]|[]%elem_of_nil]%elem_of_cons]%elem_of_cons.
  - assert (".." ∉ split "/" (join "/" ws +:+ tail)) as Hrest.
    { destruct Htail as [-> | ->].
      - by rewrite str_app_nil_r, split_join.
      - rewrite split_join_slash by done.
        intros [?|[[=]|[]%elem_of_nil]%elem_of_cons]%elem_of_app. done. }
    destruct (decide (d = [])) as [->|Hdne].
    + exists (join "/" ws +:+ tail). split; [by unfold abs; rewrite str_app_assoc|].
      split; [by right; right|done].
    + exists (String "/" (join "/" ws +:+ tail)). split.
      * unfold abs. rewrite join_app by done. by rewrite !str_app_assoc.
      * split; [by right; left|]. rewrite split_cons_sep.
        by intros [[=]|?]%elem_of_cons.
Qed.

Lemma name_static_assets : name "static-assets".
Proof. by split. Qed.

Lemma name_curdir : name ".".
Proof. by split. Qed.

Section PathTranslator.

Variable isdir exists_ : string → bool.
Variable unquote_surrogatepass : string → option string.
Variable unquote : string → string.

Lemma STATIC_ASSETS_DIR_abs d :
  Forall name d → STATIC_ASSETS_DIR (abs d) = abs (d ++ ["static-assets"]).
Proof.
  intros Hd. unfold STATIC_ASSETS_DIR, posixpath.join. cbn [foldl].
  apply join2_abs; [done|apply name_static_assets].
Qed.

(** C4: for every request path, and whatever the file system holds and
    the percent-decoder returns, [translate_path] returns a path that is
    the document root followed by plain components only (no empty one, no
    [.], no [..], none with a separator in it) and possibly a final slash,
    or the static-assets directory followed by the same components: it is
    lexically within one of the two roots.  The document root is any
    absolute path of plain components, as [abspath] returns it. *)
Theorem translate_path_within_roots (dsegs : list string) (path : string) :
  Forall plain dsegs →
  ∃ p words,
    translate_path (abs dsegs) isdir exists_ unquote_surrogatepass unquote path
    = Returned p
    ∧ Forall plain words
    ∧ (p = abs (dsegs ++ words) ∨ p = abs (dsegs ++ words) +:+ "/"
       ∨ p = abs (dsegs ++ "static-assets"
                    :: (if decide (words = []) then ["."] else words)))
    ∧ (under (abs dsegs) p ∨ under (STATIC_ASSETS_DIR (abs dsegs)) p).
Proof.
  intros Hplain. pose proof (Forall_plain_name _ Hplain) as Hd.
  unfold translate_path.
  destruct (split1_nonempty "?" (replace ":" "~" path)) as (q & qs & ->).
  cbn [getitem lookup list_lookup mbind result_bind].
  destruct (split1_nonempty "#" q) as (f & fs & ->).
  cbn [getitem lookup list_lookup mbind result_bind]. cbv zeta.
  set (decoded := match unquote_surrogatepass f with
                  | Some p => p
                  | None => unquote f
                  end).
  set (words0 := filter (λ w, w ≠ "") (split "/" (posixpath.normpath decoded))).
  pose proof (words_names (posixpath.normpath decoded)) as Hnames.
  fold words0 in Hnames.
  rewrite (translate_loop dsegs words0 Hd Hnames).
  pose proof (kept_plain _ Hnames) as Hkept.
  set (words := kept words0) in *.
  set (tail := if endswith (rstrip f) "/" then "/" else "").
  assert (tail = "" ∨ tail = "/") as Htail
    by (unfold tail; destruct (endswith _ _); auto).
  assert ((if endswith (rstrip f) "/" then abs (dsegs ++ words) +:+ "/"
           else abs (dsegs ++ words)) = abs (dsegs ++ words) +:+ tail) as ->.
  { unfold tail. destruct (endswith _ _); [done|by rewrite str_app_nil_r]. }
  destruct (isdir _ || endswith _ ".html" || exists_ _).
  - exists (abs (dsegs ++ words) +:+ tail), words.
    split; [done|]. split; [done|]. split.
    + destruct Htail as [-> | ->]; [left; by rewrite str_app_nil_r|by right; left].
    + left. apply under_abs; [done|by apply Forall_plain_name| |done].
      by apply not_elem_of_names.
  - rewrite (relpath_below _ _ _ _ Hplain Hkept Htail).
    cbn [mbind result_bind]. unfold posixpath.join at 1. cbn [foldl].
    rewrite (STATIC_ASSETS_DIR_abs _ Hd).
    assert (Forall name (dsegs ++ ["static-assets"])) as Hs.
    { apply Forall_app. split; [done|].
      constructor; [apply name_static_assets|constructor]. }
    exists (abs (dsegs ++ "static-assets"
                   :: (if decide (words = []) then ["."] else words))), words.
    assert (abs (dsegs ++ "static-assets"
                   :: (if decide (words = []) then ["."] else words))
            = abs ((dsegs ++ ["static-assets"])
                   ++ (if decide (words = []) then ["."] else words))) as Hassoc
      by (by rewrite <- app_assoc).
    split; [|split; [done|split; [by right; right|]]].
    + f_equal. rewrite Hassoc. destruct (decide (words = [])) as [Hw|Hw].
      * apply join2_abs; [done|apply name_curdir].
      * apply join2_abs_join; [done|by apply Forall_plain_name|done].
    + right. rewrite Hassoc.
      rewrite <- (str_app_nil_r
                    (abs ((dsegs ++ ["static-assets"])
                          ++ (if decide (words = []) then ["."] else words)))).
      apply under_abs; [done| | |by left].
      * destruct (decide (words = [])); [|by apply Forall_plain_name].
        constructor; [apply name_curdir|constructor].
      * destruct (decide (words = []));
          [by intros [[=]|[]%elem_of_nil]%elem_of_cons|by apply not_elem_of_names].
Qed.

End PathTranslator.

Lemma translate_path_within_roots_witness :
  translate_path "/srv/law-html" no_file no_file (λ s, Some (percent_decode s))
    percent_decode "/../../etc/passwd"
  = Returned "/srv/law-html/static-assets/etc/passwd"
  ∧ translate_path "/srv/law-html" no_file no_file (λ s, Some (percent_decode s))
      percent_decode "/%2e%2e/%2E%2E/etc/passwd.html?x=../.."
    = Returned "/srv/law-html/etc/passwd.html"
  ∧ ∃ p,
      translate_path "/srv/law-html" no_file no_file (λ s, Some (percent_decode s))
        percent_decode "/../../etc/passwd" = Returned p
      ∧ (under "/srv/law-html" p ∨ under "/srv/law-html/static-assets" p).
Proof.
  split; [reflexivity|]. split; [reflexivity|].
  destruct (translate_path_within_roots no_file no_file
              (λ s, Some (percent_decode s)) percent_decode
              ["srv"; "law-html"] "/../../etc/passwd")
    as (p & words & Hp & _ & _ & Hunder).
  - repeat constructor; discriminate.
  - exists p. split; [exact Hp|exact Hunder].
Defined.

(** * Further properties of the handlers *)

(** ** The redirect table *)

Lemma foldl_insert_pairs_lookup (raw : list (string * string))
    (d : gmap string string) (k : string) :
  foldl (λ d r, <[r.1 := r.2]> d) d raw !! k
  = match last (filter (λ r, r.1 = k) raw) with
    | Some r => Some r.2
    | None => d !! k
    end.
Proof.
  revert d. induction raw as [|[s t] raw IH]; intros d; [done|].
  cbn [foldl fst snd]. rewrite IH, filter_cons. cbn [fst].
  destruct (decide (s = k)) as [->|Hne].
  - rewrite last_cons. destruct (last _); [done|]. by rewrite lookup_insert_eq.
  - destruct (last _); [done|]. by rewrite lookup_insert_ne.
Qed.

(** The table built from the list of pairs maps a path to the target of
    the last pair that has it as source, and holds no other path. *)
Theorem load_redirects_last_wins (raw : list (string * string)) (k : string) :
  load_redirects raw !! k = snd <$> last (filter (λ r, r.1 = k) raw).
Proof.
  unfold load_redirects. rewrite foldl_insert_pairs_lookup.
  destruct (last _); [done|]. by rewrite lookup_empty.
Qed.

(** ** Cutting at the first separator, replacing a character *)

Lemma split1_no_sep c s : contains c s = false → split1 c s = [s].
Proof.
  induction s as [|a s IH]; [done|]. cbn [contains split1].
  destruct (decide (a = c)); [done|]. intros Hs. by rewrite (IH Hs).
Qed.

Lemma split1_app c s t :
  contains c s = false → split1 c (s +:+ String c t) = [s; t].
Proof.
  induction s as [|a s IH]; cbn [contains].
  - intros _. rewrite str_app_nil_l. cbn [split1]. by rewrite decide_True.
  - destruct (decide (a = c)); [done|]. intros Hs.
    rewrite str_app_cons. cbn [split1]. rewrite decide_False by done.
    by rewrite (IH Hs).
Qed.

(** The part before the first [c] of a string that starts with a [c]-free
    part [s] starts with [s]. *)
Lemma split1_head_app c s t :
  contains c s = false →
  ∃ w ws, split1 c t = w :: ws ∧ ∃ ws', split1 c (s +:+ t) = (s +:+ w) :: ws'.
Proof.
  intros Hs. destruct (split1_nonempty c t) as (w & ws & Ht).
  exists w, ws. split; [done|].
  induction s as [|a s IH]; [by exists ws|].
  cbn [contains] in Hs. destruct (decide (a = c)); [done|].
  destruct (IH Hs) as [ws' Hws']. exists ws'.
  rewrite str_app_cons. cbn [split1]. rewrite decide_False by done.
  by rewrite Hws'.
Qed.

Lemma replace_app a b s t :
  replace a b (s +:+ t) = replace a b s +:+ replace a b t.
Proof.
  induction s as [|c s IH]; [done|].
  rewrite str_app_cons. cbn [replace]. by rewrite IH, str_app_cons.
Qed.

Lemma replace_idemp a b s : a ≠ b → replace a b (replace a b s) = replace a b s.
Proof.
  intros Hne. induction s as [|c s IH]; [done|]. cbn [replace]. rewrite IH.
  f_equal. destruct (decide (c = a)) as [->|Hc].
  - by rewrite decide_False by (by intros ->).
  - by rewrite decide_False.
Qed.

(** Replacing characters brings in no [c] other than the replacement. *)
Lemma contains_replace c a b s :
  c ≠ b → contains c s = false → contains c (replace a b s) = false.
Proof.
  intros Hcb. induction s as [|x s IH]; [done|]. cbn [contains replace].
  destruct (decide (x = c)) as [|Hx]; [done|]. intros Hs.
  destruct (decide (x = a)).
  - rewrite decide_False by (by intros ->). by apply IH.
  - rewrite decide_False by done. by apply IH.
Qed.

Section MoreRouting.

Variable DIR : string.
Variable isdir exists_ : string → bool.
Variable unquote_surrogatepass : string → option string.
Variable unquote : string → string.
Variable PORTAL_CLIENT_CLASS : option ClientClass.
Variable PORTAL_HOST : option string.
Variable SEARCH_CLIENT_CLASS : option ClientClass.
Variable SEARCH_HOST : option string.
Variable sockname : string * N.
Variable upstream :
  client → string → string → gmap string (option string) → option string → outcome.
Variable can_allocate : Z → bool.

Local Abbreviation GET redirects :=
  (do_GET DIR isdir exists_ unquote_surrogatepass unquote
     PORTAL_CLIENT_CLASS PORTAL_HOST SEARCH_CLIENT_CLASS SEARCH_HOST
     redirects sockname upstream).
Local Abbreviation POST :=
  (do_POST PORTAL_CLIENT_CLASS PORTAL_HOST upstream can_allocate).
Local Abbreviation proxy := (_proxy upstream).
Local Abbreviation resolve :=
  (translate_path DIR isdir exists_ unquote_surrogatepass unquote).
Local Abbreviation static :=
  (SimpleHTTPRequestHandler_do_GET DIR isdir exists_ unquote_surrogatepass unquote).

(** With the table loaded from a list in which a source path occurs more
    than once, a GET for that path is redirected to the target of its last
    occurrence. *)
Theorem do_GET_redirects_to_last_entry (before after : list (string * string))
    (S T : string) (h : handler) :
  path h = S → S ∉ after.*1 → T ≠ "" →
  startswith_any S PORTAL_PATH_PREFIXES = false →
  startswith S "/_search" = false →
  GET (load_redirects (before ++ (S, T) :: after)) h =
    (record h [send_response_ev 302;
               send_header_ev "Location"
                 ("http://" +:+ sockname.1 +:+ ":" +:+ of_N sockname.2 +:+ T);
               end_headers_ev],
     Returned tt).
Proof.
  intros <- Hafter HT Hp Hs.
  apply do_GET_redirect; [done|done| |done].
  rewrite load_redirects_last_wins, filter_app, filter_cons_True by done.
  assert (filter (λ r : string * string, r.1 = path h) after = []) as ->.
  { clear -Hafter. induction after as [|[s t] after IH]; [done|].
    rewrite filter_cons_False.
    - apply IH. intros Hin. apply Hafter. by right.
    - cbn. intros Heq. apply Hafter. rewrite <- Heq. by left. }
  by rewrite last_snoc.
Qed.

(** ** What [translate_path] does not look at *)

Lemma translate_path_query p q :
  contains "?" p = false → resolve (p +:+ String "?" q) = resolve p.
Proof.
  intros Hp. unfold translate_path. rewrite replace_app.
  change (replace ":" "~" (String "?" q)) with (String "?" (replace ":" "~" q)).
  rewrite split1_app by (by apply contains_replace).
  by rewrite split1_no_sep by (by apply contains_replace).
Qed.

Lemma translate_path_fragment p f :
  contains "?" p = false → contains "#" p = false →
  resolve (p +:+ String "#" f) = resolve p.
Proof.
  intros Hq Hf. unfold translate_path. rewrite replace_app.
  change (replace ":" "~" (String "#" f)) with (String "#" (replace ":" "~" f)).
  destruct (split1_head_app "?" (replace ":" "~" p)
              (String "#" (replace ":" "~" f))) as (w & ws & Hw & ws' & ->);
    [by apply contains_replace|].
  rewrite (split1_no_sep "?") by (by apply contains_replace).
  cbn [getitem lookup list_lookup mbind result_bind].
  assert (∃ w', w = String "#" w') as [w' ->].
  { cbn [split1] in Hw. rewrite decide_False in Hw by done.
    destruct (split1 "?" (replace ":" "~" f)); simplify_eq; by eexists. }
  rewrite split1_app by (by apply contains_replace).
  by rewrite split1_no_sep by (by apply contains_replace).
Qed.

(** The query string and the fragment of a request path have no part in
    the file it is translated to. *)
Theorem translate_path_ignores_query_and_fragment (p q : string) :
  contains "?" p = false →
  resolve (p +:+ "?" +:+ q) = resolve p
  ∧ (contains "#" p = false → resolve (p +:+ "#" +:+ q) = resolve p).
Proof.
  intros Hp. split; [by apply translate_path_query|].
  intros Hf. by apply translate_path_fragment.
Qed.

(** A colon in the request path counts as a tilde: the path with its
    colons replaced is translated to the same file. *)
Theorem translate_path_colon_is_tilde (p : string) :
  resolve (replace ":" "~" p) = resolve p.
Proof. unfold translate_path. by rewrite replace_idemp. Qed.

(** ** The path that the static file handler gets *)

Lemma set_path_run p h : set_path p h = (with_path h p, Returned tt).
Proof. reflexivity. Qed.

Lemma with_path_same h : with_path h (path h) = h.
Proof. by destruct h. Qed.

(** When [do_GET] appends [.html]. *)
Lemma do_GET_appends redirects h :
  startswith_any (path h) PORTAL_PATH_PREFIXES = false →
  startswith (path h) "/_search" = false →
  truthy (redirects !! path h) = false →
  endswith (path h) "/" = false →
  (contains "." (path h) = false
   ∨ ∃ pre suf, path h = pre +:+ String "." suf ∧ contains "." suf = false
                ∧ suf ∉ filetypes) →
  GET redirects h = static (with_path h (path h +:+ ".html")).
Proof.
  intros Hp Hs Hr Hslash Hext. unfold do_GET.
  rewrite bind_run, gets_run, Hp, Hs. cbv zeta. rewrite Hr, bind_run, Hslash.
  destruct Hext as [Hdot|(pre & suf & Hpath & Hsuf & Hnot)].
  - rewrite Hdot. cbn [negb]. by rewrite ret_run, bind_run, set_path_run.
  - assert (contains "." (path h) = true) as ->
      by (apply contains_spec; eauto).
    cbn [negb]. rewrite bind_run, lift_run. rewrite Hpath at 1.
    rewrite (rsplit1_last _ _ _ Hsuf). cbn [getitem lookup list_lookup].
    rewrite ret_run, bool_decide_eq_true_2 by done.
    by rewrite bind_run, set_path_run.
Qed.

(** When [do_GET] leaves the path as it is. *)
Lemma do_GET_keeps redirects h :
  startswith_any (path h) PORTAL_PATH_PREFIXES = false →
  startswith (path h) "/_search" = false →
  truthy (redirects !! path h) = false →
  (endswith (path h) "/" = true
   ∨ ∃ pre suf, path h = pre +:+ String "." suf ∧ contains "." suf = false
                ∧ suf ∈ filetypes) →
  GET redirects h = static h.
Proof.
  intros Hp Hs Hr Hext. unfold do_GET.
  rewrite bind_run, gets_run, Hp, Hs. cbv zeta. rewrite Hr, bind_run.
  destruct (endswith (path h) "/") eqn:Hslash.
  - by rewrite ret_run, bind_run, ret_run.
  - destruct Hext as [?|(pre & suf & Hpath & Hsuf & Hin)]; [done|].
    assert (contains "." (path h) = true) as ->
      by (apply contains_spec; eauto).
    cbn [negb]. rewrite bind_run, lift_run. rewrite Hpath at 1.
    rewrite (rsplit1_last _ _ _ Hsuf). cbn [getitem lookup list_lookup].
    rewrite ret_run, bool_decide_eq_false_2 by (by intros ?).
    by rewrite bind_run, ret_run.
Qed.

(** A GET that is neither proxied nor redirected, for a path that ends
    with a slash or whose suffix after the last dot is a recognized file
    type, is served from the path as it is: [self.path] is not changed. *)
Theorem do_GET_keeps_recognized_path redirects (h : handler) :
  startswith_any (path h) PORTAL_PATH_PREFIXES = false →
  startswith (path h) "/_search" = false →
  truthy (redirects !! path h) = false →
  ((∃ pre, path h = pre +:+ "/")
   ∨ ∃ pre suf, path h = pre +:+ "." +:+ suf ∧ contains "." suf = false
                ∧ suf ∈ filetypes) →
  GET redirects h =
    match resolve (path h) with
    | Returned f => (record h [serve_file_ev f], Returned tt)
    | Raised e => (h, Raised e)
    end.
Proof.
  intros Hp Hs Hr Hext. rewrite <- static_run. apply do_GET_keeps; try done.
  destruct Hext as [Hslash|?]; [left|by right].
  by apply endswith_spec.
Qed.

(** The default extension goes behind the query string, where
    [translate_path] drops it: a GET for [p?q] that gets [.html] appended
    is served from the file for [p], not for [p.html]. *)
Theorem do_GET_extension_lost_behind_query redirects (h : handler) (p q : string) :
  path h = p +:+ "?" +:+ q → contains "?" p = false →
  startswith_any (path h) PORTAL_PATH_PREFIXES = false →
  startswith (path h) "/_search" = false →
  truthy (redirects !! path h) = false →
  endswith (path h) "/" = false →
  (contains "." (path h) = false
   ∨ ∃ pre suf, path h = pre +:+ "." +:+ suf ∧ contains "." suf = false
                ∧ suf ∉ filetypes) →
  GET redirects h =
    match resolve p with
    | Returned f =>
        (record (with_path h (path h +:+ ".html")) [serve_file_ev f], Returned tt)
    | Raised e => (with_path h (path h +:+ ".html"), Raised e)
    end.
Proof.
  intros Hpath Hq Hp Hs Hr Hslash Hext.
  rewrite do_GET_appends by done. rewrite static_run.
  change (path (with_path h (path h +:+ ".html"))) with (path h +:+ ".html").
  assert (resolve (path h +:+ ".html") = resolve p) as ->; [|done].
  rewrite Hpath. change ("?" +:+ q) with (String "?" q).
  rewrite str_app_assoc, str_app_cons.
  by apply translate_path_query.
Qed.

(** ** What [_proxy] sends, in every case *)

Lemma count_app f evs1 evs2 : count f (evs1 ++ evs2) = (count f evs1 + count f evs2)%nat.
Proof. unfold count. by rewrite List.filter_app, length_app. Qed.

Lemma count_relayed f hs :
  (∀ k v, f (send_header_ev k v) = false) → count f (relayed hs) = 0%nat.
Proof.
  intros Hf. unfold relayed, count.
  induction (filter _ hs) as [|kv l IH]; [done|].
  rewrite fmap_cons. cbn [List.filter]. by rewrite Hf.
Qed.

(** Whatever the target, the request and the upstream do, one call of
    [_proxy] sends at most one status line and ends the headers once for
    each status line it sent; a call that returns has sent exactly one;
    and it changes nothing of the handler but the trace. *)
Theorem proxy_sends_one_response Client host name method body (h : handler) :
  ∃ evs,
    (proxy Client host name method body h).1 = record h evs
    ∧ (count is_send_response evs ≤ 1)%nat
    ∧ count is_end_headers evs = count is_send_response evs
    ∧ ((proxy Client host name method body h).2 = Returned tt →
       count is_send_response evs = 1%nat).
Proof.
  destruct Client as [cls|].
  - destruct (new_client cls host) as [c|e] eqn:Hc.
    + rewrite (proxy_configured _ _ _ _ _ _ _ _ Hc). cbv zeta.
      destruct (putrequest _ _) as [[]|e];
        [destruct (bool_decide _); [destruct (upstream _ _ _ _ _) as [| |resp]|]|];
        cbn [fst snd]; rewrite ?record_record; eexists;
        (split; [reflexivity|]); rewrite ?count_app, ?count_relayed by done;
        cbn; repeat split; (done || lia).
    + exists []. unfold _proxy. rewrite bind_run, lift_run, Hc. cbn [fst snd].
      rewrite record_nil. repeat split; (done || cbn; lia).
  - rewrite proxy_unconfigured. eexists. split; [reflexivity|].
    cbn. repeat split; lia.
Qed.


(** ** POST: the Content-Length header and the input *)

Lemma substring_all s : String.substring 0 (String.length s) s = s.
Proof. induction s as [|a s IH]; [done|]. cbn. by rewrite IH. Qed.

Lemma substring_split n s :
  String.substring 0 n s
  +:+ String.substring (String.length (String.substring 0 n s))
        (String.length s - String.length (String.substring 0 n s)) s
  = s.
Proof.
  revert n. induction s as [|a s IH]; intros [|n]; try done.
  - cbn [String.substring String.length]. rewrite Nat.sub_0_r.
    rewrite str_app_nil_l. apply (substring_all (String a s)).
  - cbn [String.substring String.length]. rewrite str_app_cons.
    cbn [Nat.sub]. by rewrite IH.
Qed.

(** A POST to the authentication path without a usable Content-Length is
    not answered: without the header [int(None)] raises [TypeError]; with
    a value that is no integer (or has too many digits) [int] raises
    [ValueError]; with an integer below -1 [read] raises [ValueError], or
    [OverflowError] when it does not fit the machine's index type; with an
    integer too large for a [bytes] object [read] raises [OverflowError],
    and [MemoryError] when there is no memory for that many bytes.  In each
    case nothing is read and nothing is sent. *)
Theorem do_POST_bad_content_length (h : handler) :
  path h = "/_api/authenticate" →
  (Message_get (headers h) "Content-Length" = None → POST h = (h, Raised TypeError))
  ∧ (∀ v, Message_get (headers h) "Content-Length" = Some v →
          int_of_str v = Raised ValueError → POST h = (h, Raised ValueError))
  ∧ (∀ v n, Message_get (headers h) "Content-Length" = Some v →
            int_of_str v = Returned n →
            (- maxsize - 1 ≤ n < -1 → POST h = (h, Raised ValueError))
            ∧ (n < - maxsize - 1 ∨ maxsize - PyBytesObject_SIZE < n →
               POST h = (h, Raised OverflowError))
            ∧ (0 ≤ n ≤ maxsize - PyBytesObject_SIZE → can_allocate n = false →
               POST h = (h, Raised MemoryError))).
Proof.
  intros Hpath. unfold do_POST. rewrite bind_run, gets_run.
  rewrite decide_True by done.
  rewrite bind_run, gets_run, bind_run, lift_run.
  split; [by intros ->|]. split.
  - intros v -> Hv. cbn [int]. by rewrite Hv.
  - intros v n -> Hv. cbn [int]. rewrite Hv, bind_run.
    unfold rfile_read. rewrite maxsize_eq. unfold PyBytesObject_SIZE.
    split; [|split].
    + intros Hn. rewrite decide_False by lia. by rewrite decide_True by lia.
    + intros Hn. repeat case_decide; (done || (exfalso; lia)).
    + intros Hn Hmem. rewrite decide_False by lia. rewrite decide_False by lia.
      rewrite decide_False by lia. rewrite decide_False by lia.
      by rewrite Hmem.
Qed.

(** A POST to the authentication path with a Content-Length [n >= 0] that
    [read] can serve takes the body off the front of the input and leaves
    what follows unread, whatever the proxy call then does. *)
Theorem do_POST_leaves_rest_unread (h : handler) (v : string) (n : Z) :
  path h = "/_api/authenticate" →
  Message_get (headers h) "Content-Length" = Some v →
  int_of_str v = Returned n →
  0 ≤ n ≤ maxsize - PyBytesObject_SIZE → can_allocate n = true →
  String.substring 0 (Z.to_nat n) (rfile h) +:+ rfile (POST h).1 = rfile h
  ∧ path (POST h).1 = path h ∧ headers (POST h).1 = headers h.
Proof.
  intros Hpath Hv Hn Hrange Hmem.
  rewrite (do_POST_authenticate PORTAL_CLIENT_CLASS PORTAL_HOST upstream can_allocate
             h v n Hpath Hv Hn Hrange Hmem).
  destruct (proxy_upstream_calls upstream PORTAL_CLIENT_CLASS PORTAL_HOST "portal"
              "POST" (Some (slice_to n (rfile h)))
              (after_read h (slice_to n (rfile h)))) as (evs & Hrun & _).
  rewrite Hrun. cbn [rfile path headers record after_read].
  split; [apply substring_split|done].
Qed.

End MoreRouting.

(** * Properties of the start-up code *)

Lemma str_length_app s t :
  String.length (s +:+ t) = (String.length s + String.length t)%nat.
Proof. induction s as [|a s IH]; [done|]. rewrite str_app_cons. cbn. by rewrite IH. Qed.

Lemma str_app_inj_head s t t' : s +:+ t = s +:+ t' → t = t'.
Proof.
  induction s as [|a s IH]; [done|]. rewrite !str_app_cons. intros [= ?]. by apply IH.
Defined.

Lemma str_app_inv_tail s s' t : s +:+ t = s' +:+ t → s = s'.
Proof.
  revert s'. induction s as [|a s IH]; intros [|a' s'] Heq; [done| | |].
  - apply (f_equal String.length) in Heq.
    rewrite str_app_nil_l, str_app_cons in Heq. cbn in Heq.
    rewrite str_length_app in Heq. lia.
  - apply (f_equal String.length) in Heq.
    rewrite str_app_nil_l, str_app_cons in Heq. cbn in Heq.
    rewrite str_length_app in Heq. lia.
  - rewrite !str_app_cons in Heq. simplify_eq. f_equal. by apply IH.
Qed.

Section StartupFacts.

Variable FS : Type.
Variable fs_exists : FS → string → bool.
Variable fs_listdir : FS → string → result (list string).
Variable fs_mkdir : FS → string → result FS.
Variable fs_write : FS → string → string → result FS.
Variable urlparse : string → string * string.
Variable fetch : string → result archive.

Local Abbreviation Script := (Script FS).
Local Abbreviation world := (FS * list startup_event)%type.

Lemma script_bind_run {A B} (m : Script A) (f : A → Script B) (w : world) :
  (m ≫= f) w = match m w with
               | (w', Done a) => f a w'
               | (w', Failed e) => (w', Failed e)
               | (w', Exited n) => (w', Exited n)
               end.
Proof. reflexivity. Qed.

Lemma said_said (w : world) evs1 evs2 :
  said FS (said FS w evs1) evs2 = said FS w (evs1 ++ evs2).
Proof. unfold said. cbn. by rewrite app_assoc. Qed.

Lemma said_nil (w : world) : said FS w [] = w.
Proof. destruct w. unfold said. cbn. by rewrite app_nil_r. Qed.

Lemma script_ret_run {A} (a : A) (w : world) :
  @mret Script _ A a w = (w, Done a).
Proof. reflexivity. Qed.

Lemma out_run e (w : world) : out FS e w = (said FS w [e], Done tt).
Proof. reflexivity. Qed.

Lemma print_run line (w : world) : print FS line w = (said FS w [print_ev line], Done tt).
Proof. reflexivity. Qed.

(** ** The metadata *)

Lemma get_step {B} (m : gmap string json) k d (f : json → Script B) (w : world) v :
  default d (m !! k) = v → (step FS (json_get (JObj m) k d) ≫= f) w = f v w.
Proof. by intros <-. Qed.

(** Start-up goes on exactly with both canonical URLs: when [meta] holds
    [canonical-urls] with [html] and [static-assets] both present and not
    null, they are the result and nothing is printed; when [meta] or
    [canonical-urls] is missing, or one of the two entries is missing or
    null, the process prints two lines and exits with status 1 (the [{}]
    defaults keep the lookups from raising); when [meta] is there but is no
    object, the lookup raises [AttributeError]. *)
Theorem canonical_urls_required (members : gmap string json) (w : world) :
  let exits :=
    ∃ line1 line2,
      canonical_urls FS (JObj members) w
      = (said FS w [print_ev line1; print_ev line2], Exited 1) in
  (∀ mm cm html sa,
     members !! "meta" = Some (JObj mm) → mm !! "canonical-urls" = Some (JObj cm) →
     cm !! "html" = Some html → cm !! "static-assets" = Some sa →
     is_None html = false → is_None sa = false →
     canonical_urls FS (JObj members) w = (w, Done (html, sa)))
  ∧ (members !! "meta" = None → exits)
  ∧ (∀ mm, members !! "meta" = Some (JObj mm) → mm !! "canonical-urls" = None → exits)
  ∧ (∀ mm cm, members !! "meta" = Some (JObj mm) →
              mm !! "canonical-urls" = Some (JObj cm) →
              cm !! "html" = None ∨ cm !! "html" = Some JNull
              ∨ cm !! "static-assets" = None ∨ cm !! "static-assets" = Some JNull →
              exits)
  ∧ (∀ v, members !! "meta" = Some v → (∀ mm, v ≠ JObj mm) →
          canonical_urls FS (JObj members) w = (w, Failed AttributeError)).
Proof.
  assert (∀ (u : world) l1 l2,
            (print FS l1;; print FS l2;; sys_exit FS 1 : Script (json * json)) u
            = (said FS u [print_ev l1; print_ev l2], Exited 1)) as Hexit.
  { intros u l1 l2.
    rewrite script_bind_run, print_run, script_bind_run, print_run, said_said.
    reflexivity. }
  cbv zeta. unfold canonical_urls. repeat split.
  - intros mm cm html sa Hm Hc Hh Hs Hhn Hsn.
    rewrite (get_step _ _ _ _ _ (JObj mm)) by (by rewrite Hm).
    rewrite (get_step _ _ _ _ _ (JObj cm)) by (by rewrite Hc).
    rewrite (get_step _ _ _ _ _ html) by (by rewrite Hh).
    rewrite (get_step _ _ _ _ _ sa) by (by rewrite Hs).
    by rewrite Hhn, Hsn.
  - intros Hm. do 2 eexists.
    rewrite (get_step _ _ _ _ _ (JObj ∅)) by (by rewrite Hm).
    rewrite (get_step _ _ _ _ _ (JObj ∅)) by (by rewrite lookup_empty).
    rewrite (get_step _ _ _ _ _ JNull) by (by rewrite lookup_empty).
    rewrite (get_step _ _ _ _ _ JNull) by (by rewrite lookup_empty).
    apply Hexit.
  - intros mm Hm Hc. do 2 eexists.
    rewrite (get_step _ _ _ _ _ (JObj mm)) by (by rewrite Hm).
    rewrite (get_step _ _ _ _ _ (JObj ∅)) by (by rewrite Hc).
    rewrite (get_step _ _ _ _ _ JNull) by (by rewrite lookup_empty).
    rewrite (get_step _ _ _ _ _ JNull) by (by rewrite lookup_empty).
    apply Hexit.
  - intros mm cm Hm Hc Hmissing. do 2 eexists.
    rewrite (get_step _ _ _ _ _ (JObj mm)) by (by rewrite Hm).
    rewrite (get_step _ _ _ _ _ (JObj cm)) by (by rewrite Hc).
    rewrite (get_step _ _ _ _ _ _ eq_refl).
    rewrite (get_step _ _ _ _ _ _ eq_refl).
    assert (is_None (default JNull (cm !! "html"))
            || is_None (default JNull (cm !! "static-assets")) = true) as ->.
    { destruct Hmissing as [-> | [-> | [-> | ->]]]; cbn;
        rewrite ?orb_true_r; done. }
    apply Hexit.
  - intros v Hm Hv. rewrite (get_step _ _ _ _ _ v) by (by rewrite Hm).
    rewrite script_bind_run.
    destruct v as [| | | | |mm]; try done. by destruct (Hv mm).
Qed.

(** ** The upstream targets *)

Variable upstream :
  client → string → string → gmap string (option string) → option string → outcome.

(** Without a URL ([None], or the empty string) a target is not
    configured: [get_http_client_info] returns [(None, None)] and prints
    nothing, and [_proxy] called with that pair answers every request with
    the 400 response that names the flag. *)
Theorem unset_proxy_url_answers_400 (name : string) (url : option string)
    (w : world) (h : handler) :
  url = None ∨ url = Some "" →
  ∃ Client host,
    get_http_client_info FS urlparse name url w = (w, Done (Client, host))
    ∧ ∀ method body,
        _proxy upstream Client host name method body h
        = (record h (not_configured_response name), Returned tt).
Proof.
  intros Hurl. exists None, None. split.
  - by destruct Hurl as [-> | ->].
  - intros method body. apply proxy_unconfigured.
Qed.

Lemma getattr_class attr cls :
  class_name cls = attr → http_client_getattr attr = Returned cls.
Proof. intros <-. by destruct cls. Qed.

Lemma getattr_no_class attr :
  (∀ cls, class_name cls ≠ attr) → http_client_getattr attr = Raised AttributeError.
Proof.
  intros Hno. unfold http_client_getattr.
  destruct (decide (attr = "HTTPConnection")) as [->|_];
    [by destruct (Hno HTTPConnection)|].
  destruct (decide (attr = "HTTPSConnection")) as [->|_];
    [by destruct (Hno HTTPSConnection)|done].
Qed.

(** With a URL, the client class is the one named after the upper-cased
    scheme: then the call prints the PROXYING line and returns the class
    and the network location, and the scheme that [_proxy] reads back off
    the class name is the URL's scheme up to letter case.  When [http.client]
    has no class of that name -- any scheme but http and https, and the
    empty scheme of a URL written without one, for which the advice is
    printed first -- the call raises [AttributeError]. *)
Theorem get_http_client_info_by_scheme (name url scheme host : string) (w : world) :
  url ≠ "" → urlparse url = (scheme, host) →
  (∀ cls, class_name cls = upper scheme +:+ "Connection" →
     get_http_client_info FS urlparse name (Some url) w
     = (said FS w [print_ev ("PROXYING: " +:+ dquote +:+ "/_" +:+ name +:+ dquote
                             +:+ " to " +:+ url)],
        Done (Some cls, Some host))
     ∧ scheme ≠ ""
     ∧ upper (lower (slice_to_neg 10 (class_name cls))) = upper scheme)
  ∧ ((∀ cls, class_name cls ≠ upper scheme +:+ "Connection") →
     scheme ≠ "" →
     get_http_client_info FS urlparse name (Some url) w = (w, Failed AttributeError))
  ∧ (scheme = "" →
     get_http_client_info FS urlparse name (Some url) w
     = (said FS w [print_ev ("Must include scheme in " +:+ name
                    +:+ "-proxy-url (e.g. https://example.com, rather than example.com)")],
        Failed AttributeError)).
Proof.
  intros Hurl Hparse. destruct url as [|a url]; [done|].
  unfold get_http_client_info. rewrite Hparse. repeat split.
  - destruct (decide (scheme = "")) as [->|Hs]; [by destruct cls|].
    rewrite script_bind_run, script_ret_run, script_bind_run.
    rewrite (getattr_class _ cls) by done.
    cbn [step]. by rewrite script_bind_run, print_run.
  - intros ->. by destruct cls.
  - destruct cls.
    + change (class_name HTTPConnection) with ("HTTP" +:+ "Connection") in H.
      apply str_app_inv_tail in H. by rewrite <- H.
    + change (class_name HTTPSConnection) with ("HTTPS" +:+ "Connection") in H.
      apply str_app_inv_tail in H. by rewrite <- H.
  - intros Hno Hs. rewrite decide_False by done.
    rewrite script_bind_run, script_ret_run, script_bind_run.
    by rewrite getattr_no_class.
  - intros ->. rewrite decide_True by done.
    rewrite script_bind_run, print_run, script_bind_run. done.
Qed.

(** ** The download of the static assets *)

Local Abbreviation download := (download_static_assets FS fs_exists fs_listdir
                                  fs_mkdir fs_write fetch).
Local Abbreviation extract := (extract_member FS fs_exists fs_mkdir fs_write).

Lemma step_run {A} (r : result A) (w : world) :
  step FS r w = match r with
                | Returned a => (w, Done a)
                | Raised e => (w, Failed e)
                end.
Proof. reflexivity. Qed.

(** The download is skipped when the static-assets directory has
    something in it and the refresh is not forced: nothing is printed,
    fetched or written. *)
Theorem download_skipped (DIR url : string) (w : world) (listing : list string) :
  fs_listdir w.1 (STATIC_ASSETS_DIR DIR) = Returned listing →
  listing ≠ [] →
  download DIR url false w = (w, Done tt).
Proof.
  intros Hls Hne. unfold download_static_assets, with_fs.
  rewrite script_bind_run, step_run, Hls.
  rewrite bool_decide_eq_false_2 by (by destruct listing). done.
Qed.

(** One member is extracted without ending the process, and what was
    output before stays. *)
Lemma extract_member_tame DIR zip_file root_dir member (w : world) :
  ∃ fs' evs, (extract DIR zip_file root_dir member w).1 = (fs', w.2 ++ evs)
             ∧ ∀ n, (extract DIR zip_file root_dir member w).2 ≠ Exited n.
Proof.
  unfold extract_member. rewrite script_bind_run, step_run.
  destruct (posixpath.relpath _ _ _) as [rel|e].
  2:{ exists w.1, []. rewrite app_nil_r. by destruct w. }
  cbv zeta. destruct (decide (basename member = "")) as [Hdir|Hfile].
  - unfold with_fs. destruct (fs_exists _ _).
    + exists w.1, []. rewrite app_nil_r. by destruct w.
    + unfold fs_step. destruct (fs_mkdir _ _) as [fs'|e].
      * by exists fs', [mkdir_ev (posixpath.join (STATIC_ASSETS_DIR DIR) [rel])].
      * exists w.1, []. rewrite app_nil_r. by destruct w.
  - unfold fs_step. destruct (fs_write _ _ _) as [fs'|e].
    + by eexists fs', [_].
    + exists w.1, []. rewrite app_nil_r. by destruct w.
Qed.

Lemma for_members_tame DIR zip_file root_dir members (w : world) :
  ∃ fs' evs,
    (for_members FS members (extract DIR zip_file root_dir) w).1 = (fs', w.2 ++ evs)
    ∧ ∀ n, (for_members FS members (extract DIR zip_file root_dir) w).2 ≠ Exited n.
Proof.
  revert w. induction members as [|m members IH]; intros w.
  - exists w.1, []. rewrite app_nil_r. by destruct w.
  - cbn [for_members]. rewrite script_bind_run.
    destruct (extract_member_tame DIR zip_file root_dir m w)
      as (fs1 & evs1 & Hw1 & Hr1).
    destruct (extract DIR zip_file root_dir m w) as [w1 [[]|e|n]];
      cbn [fst snd] in *; subst w1.
    + destruct (IH (fs1, w.2 ++ evs1)) as (fs2 & evs2 & Hw2 & Hr2).
      exists fs2, (evs1 ++ evs2). rewrite Hw2. cbn [snd].
      by rewrite app_assoc.
    + by exists fs1, evs1.
    + by destruct (Hr1 n).
Qed.

(** When the download runs (the directory is empty, or the refresh is
    forced) it prints its line and opens
    [<repository URL>/archive/master.zip]; whatever then happens, the call
    returns or the process exits with status 1 -- no exception leaves it;
    when the archive cannot be fetched, and when it has no member at all,
    the error is printed and the process exits before anything is
    written. *)
Theorem download_returns_or_exits (DIR url : string) (force : bool) (w : world)
    (listing : list string) :
  fs_listdir w.1 (STATIC_ASSETS_DIR DIR) = Returned listing →
  listing = [] ∨ force = true →
  let banner := print_ev (String (chr 10) "Downloading static assets..."
                          +:+ String (chr 10) "") in
  let ZIP_URL := url +:+ "/archive/master.zip" in
  (∃ fs' evs, (download DIR url force w).1
              = (fs', w.2 ++ banner :: urlopen_ev ZIP_URL :: evs))
  ∧ ((download DIR url force w).2 = Done tt ∨ (download DIR url force w).2 = Exited 1)
  ∧ (∀ e, fetch ZIP_URL = Raised e →
          download DIR url force w
          = (said FS w [banner; urlopen_ev ZIP_URL; print_error_ev e], Exited 1))
  ∧ (fetch ZIP_URL = Returned [] →
     download DIR url force w
     = (said FS w [banner; urlopen_ev ZIP_URL; print_error_ev IndexError], Exited 1)).
Proof.
  intros Hls Hrun. cbv zeta. unfold download_static_assets, with_fs.
  rewrite script_bind_run, step_run, Hls.
  assert (negb (bool_decide (length listing = 0%nat) || force) = false) as ->.
  { destruct Hrun as [-> | ->]; [done|]. by rewrite orb_true_r. }
  rewrite script_bind_run, print_run. unfold try_except.
  rewrite script_bind_run, out_run, said_said, script_bind_run, step_run.
  destruct (fetch _) as [zip_file|e].
  2:{ rewrite script_bind_run, out_run, said_said. cbn [app].
      repeat split; [by eexists _, [_]|by right|by intros ? [= ->]|done]. }
  rewrite script_bind_run, step_run.
  destruct (getitem zip_file.*1 0) as [root_dir|e] eqn:Hroot.
  2:{ rewrite script_bind_run, out_run, said_said. cbn [app].
      repeat split; [by eexists _, [_]|by right|done|].
      intros [= ->]. cbn in Hroot. by simplify_eq. }
  destruct (for_members_tame DIR zip_file root_dir (drop 1 zip_file.*1)
              (said FS w ([print_ev (String (chr 10) "Downloading static assets..."
                                     +:+ String (chr 10) "")]
                          ++ [urlopen_ev (url +:+ "/archive/master.zip")])))
    as (fs' & evs & Hw' & Hr').
  destruct (for_members FS _ _ _) as [w' [[]|e|n]]; cbn [fst snd] in *; subst w'.
  - repeat split; [|by left|done|by intros [= ->]].
    exists fs', evs. cbn. by rewrite <- !app_assoc.
  - rewrite script_bind_run, out_run. unfold said. cbn [fst snd].
    repeat split; [|by right|done|by intros [= ->]].
    exists fs', (evs ++ [print_error_ev e]). by rewrite <- !app_assoc.
  - by destruct (Hr' n).
Qed.

End StartupFacts.

(** ** Where an archive member lands *)

Lemma rfind_app c s w :
  contains c w = false → rfind c (s +:+ String c w) = Z.of_nat (String.length s).
Proof.
  intros Hw. induction s as [|a s IH].
  - rewrite str_app_nil_l. cbn [rfind]. rewrite (rfind_no_sep _ _ Hw).
    rewrite decide_True by done. by rewrite decide_True.
  - rewrite str_app_cons. cbn [rfind String.length]. rewrite IH.
    rewrite decide_False by lia. lia.
Qed.

Lemma substring_app_skip s t k m :
  String.substring (String.length s + k) m (s +:+ t) = String.substring k m t.
Proof. induction s as [|a s IH]; [done|]. by rewrite str_app_cons. Qed.

Lemma basename_app s w :
  contains "/" w = false → basename (s +:+ String "/" w) = w.
Proof.
  intros Hw. unfold basename, slice_from. rewrite (rfind_app _ _ _ Hw).
  replace (Z.to_nat (Z.of_nat (String.length s) + 1))
    with (String.length s + 1)%nat by lia.
  rewrite substring_app_skip, str_length_app. cbn [String.length String.substring].
  replace (String.length s + S (String.length w) - (String.length s + 1))%nat
    with (String.length w) by lia.
  apply substring_all.
Qed.

Lemma join_first_char ws :
  Forall name ws → ws ≠ [] → ∃ a t, join "/" ws = String a t ∧ a ≠ "/"%char.
Proof.
  intros Hws Hne. destruct Hws as [|w ws [Hwne Hw] _]; [done|].
  destruct w as [|a w]; [done|]. cbn [contains] in Hw.
  destruct (decide (a = "/"%char)) as [|Ha]; [done|].
  destruct ws; [|rewrite join_cons by done]; by eexists _, _.
Qed.

Lemma relative_not_absolute ws tail :
  Forall name ws → ws ≠ [] → startswith (join "/" ws +:+ tail) "/" = false.
Proof.
  intros Hws Hne. destruct (join_first_char ws Hws Hne) as (a & t & -> & Ha).
  rewrite str_app_cons. cbn [startswith]. by rewrite decide_False by (by intros <-).
Qed.

(** Joining a relative path of names, with or without a final slash, onto
    an absolute path of names. *)
Lemma join2_abs_join_tail d ws tail :
  Forall name d → Forall name ws → ws ≠ [] →
  posixpath.join2 (abs d) (join "/" ws +:+ tail) = abs (d ++ ws) +:+ tail.
Proof.
  intros Hd Hws Hne. unfold posixpath.join2, posixpath.sep.
  rewrite (relative_not_absolute _ _ Hws Hne), (endswith_abs _ Hd).
  rewrite bool_decide_eq_false_2 by done. cbn [orb].
  destruct (decide (d = [])) as [->|Hdne].
  - rewrite bool_decide_eq_true_2 by done. unfold abs. by rewrite !str_app_assoc.
  - rewrite bool_decide_eq_false_2 by done. unfold abs.
    rewrite join_app by done. by rewrite !str_app_assoc.
Qed.

(** The components [relpath] sees of a relative path, with the working
    directory [abs d]. *)
Lemma abspath_relative_components d ws tail :
  Forall plain d → Forall plain ws → ws ≠ [] → tail = "" ∨ tail = "/" →
  filter (λ x, x ≠ "")
    (split "/" (posixpath.abspath (abs d) (join "/" ws +:+ tail)))
  = d ++ ws.
Proof.
  intros Hd Hws Hne Htail. unfold posixpath.abspath, posixpath.isabs, posixpath.sep.
  rewrite relative_not_absolute by (by try apply Forall_plain_name).
  unfold posixpath.join. cbn [foldl].
  rewrite join2_abs_join_tail by (by try apply Forall_plain_name).
  pose proof (abspath_components "" (d ++ ws) tail) as Hc.
  unfold posixpath.abspath, posixpath.isabs, posixpath.sep in Hc.
  rewrite abs_absolute in Hc. apply Hc; [|done]. by apply Forall_app.
Qed.

(** [relpath] of a member below the archive's top-level directory. *)
Lemma relpath_member d r comps tail :
  Forall plain d → plain r → Forall plain comps → comps ≠ [] →
  tail = "" ∨ tail = "/" →
  posixpath.relpath (abs d) (join "/" (r :: comps) +:+ tail) (r +:+ "/")
  = Returned (join "/" comps).
Proof.
  intros Hd Hr Hcomps Hne Htail. unfold posixpath.relpath.
  assert (Forall plain (r :: comps)) as Hall by (by constructor).
  rewrite decide_False.
  2:{ destruct (join_first_char (r :: comps)) as (a & t & -> & _);
        [by apply Forall_plain_name|done|]. by rewrite str_app_cons. }
  cbv zeta.
  assert (filter (λ x, x ≠ "")
            (split "/" (posixpath.abspath (abs d) (r +:+ "/"))) = d ++ [r]) as ->.
  { apply (abspath_relative_components d [r] "/"); auto. }
  rewrite abspath_relative_components by done.
  replace (d ++ r :: comps) with ((d ++ [r]) ++ comps) by (by rewrite <- app_assoc).
  rewrite commonprefix_len_app, Nat.sub_diag, drop_app_length.
  cbn [replicate app]. destruct comps as [|c comps]; [done|].
  rewrite join_names; [done|]. by apply Forall_plain_name.
Qed.

Section Extraction.

Variable FS : Type.
Variable fs_exists : FS → string → bool.
Variable fs_mkdir : FS → string → result FS.
Variable fs_write : FS → string → string → result FS.

Local Abbreviation extract := (extract_member FS fs_exists fs_mkdir fs_write).

Lemma extract_member_below (d : list string) (r : string)
    (comps : list string) (zip_file : archive) (w : FS * list startup_event) :
  Forall plain d → plain r → Forall plain comps → comps ≠ [] →
  let target := abs (d ++ "static-assets" :: comps) in
  extract (abs d) zip_file (r +:+ "/") (join "/" (r :: comps)) w
  = fs_step FS (λ fs, fs_write fs target (zip_read zip_file (join "/" (r :: comps))))
      (write_file_ev target (zip_read zip_file (join "/" (r :: comps)))) w
  ∧ extract (abs d) zip_file (r +:+ "/") (join "/" (r :: comps) +:+ "/") w
    = (if fs_exists w.1 target then (w, Done tt)
       else fs_step FS (λ fs, fs_mkdir fs target) (mkdir_ev target) w)
  ∧ under (STATIC_ASSETS_DIR (abs d)) target.
Proof.
  intros Hd Hr Hcomps Hne. cbv zeta.
  pose proof (Forall_plain_name _ Hd) as Hdn.
  assert (Forall name (d ++ ["static-assets"])) as Hs.
  { apply Forall_app. split; [done|].
    constructor; [apply name_static_assets|constructor]. }
  assert (posixpath.join (STATIC_ASSETS_DIR (abs d)) [join "/" comps]
          = abs (d ++ "static-assets" :: comps)) as Htarget.
  { unfold STATIC_ASSETS_DIR, posixpath.join. cbn [foldl].
    rewrite join2_abs by (done || apply name_static_assets).
    rewrite join2_abs_join by (done || by apply Forall_plain_name).
    by rewrite <- app_assoc. }
  destruct (exists_last Hne) as (init & lastc & ->).
  assert (contains "/" lastc = false ∧ lastc ≠ "") as [Hlast Hlastne].
  { apply Forall_app in Hcomps as [_ Hl]. inversion Hl as [|? ? [[? ?] _] _]; by subst. }
  assert (join "/" (r :: init ++ [lastc])
          = join "/" (r :: init) +:+ String "/" lastc) as Hjoin
    by (change (r :: init ++ [lastc]) with ((r :: init) ++ [lastc]);
        by rewrite join_snoc).
  split; [|split].
  - assert (posixpath.relpath (abs d) (join "/" (r :: init ++ [lastc])) (r +:+ "/")
            = Returned (join "/" (init ++ [lastc]))) as Hrel.
    { rewrite <- (str_app_nil_r (join "/" (r :: init ++ [lastc]))).
      apply relpath_member; auto. }
    unfold extract_member. rewrite Hrel.
    rewrite script_bind_run, step_run. cbv zeta. rewrite Htarget.
    rewrite decide_False; [done|].
    rewrite Hjoin, basename_app by done. done.
  - unfold extract_member.
    rewrite (relpath_member d r (init ++ [lastc]) "/") by auto.
    rewrite script_bind_run, step_run. cbv zeta. rewrite Htarget.
    rewrite decide_True.
    + unfold with_fs. by destruct (fs_exists _ _).
    + change ("/") with (String "/" "") at 2. by rewrite basename_app.
  - rewrite (STATIC_ASSETS_DIR_abs _ Hdn).
    replace (d ++ "static-assets" :: init ++ [lastc])
      with ((d ++ ["static-assets"]) ++ init ++ [lastc]) by (by rewrite <- app_assoc).
    rewrite <- (str_app_nil_r (abs ((d ++ ["static-assets"]) ++ init ++ [lastc]))).
    apply under_abs; [done|by apply Forall_plain_name|by apply not_elem_of_names|by left].
Qed.

(** A member of the archive that lies below the archive's top-level
    directory [r/] lands below the static-assets directory at its path
    relative to [r/]: a file [r/c1/.../cn] is written, with the content of
    its entry, to [static-assets/c1/.../cn], and a directory entry
    [r/c1/.../cn/] is made there unless it exists. *)
Theorem extract_member_strips_root (d : list string) (r : string)
    (comps : list string) (zip_file : archive) (w : FS * list startup_event) :
  Forall plain d → plain r → Forall plain comps → comps ≠ [] →
  let target := abs (d ++ "static-assets" :: comps) in
  extract (abs d) zip_file (r +:+ "/") (join "/" (r :: comps)) w
  = fs_step FS (λ fs, fs_write fs target (zip_read zip_file (join "/" (r :: comps))))
      (write_file_ev target (zip_read zip_file (join "/" (r :: comps)))) w
  ∧ extract (abs d) zip_file (r +:+ "/") (join "/" (r :: comps) +:+ "/") w
    = (if fs_exists w.1 target then (w, Done tt)
       else fs_step FS (λ fs, fs_mkdir fs target) (mkdir_ev target) w)
  ∧ under (STATIC_ASSETS_DIR (abs d)) target.
Proof. apply extract_member_below. Qed.

Variable fs_listdir : FS → string → result (list string).
Variable fetch : string → result archive.

Local Abbreviation download := (download_static_assets FS fs_exists fs_listdir
                                  fs_mkdir fs_write fetch).

Lemma extract_member_within d r zip_file member (w : FS * list startup_event) :
  Forall plain d → plain r → below r member →
  ∃ fs' evs,
    (extract (abs d) zip_file (r +:+ "/") member w).1 = (fs', w.2 ++ evs)
    ∧ Forall (touches_within (STATIC_ASSETS_DIR (abs d))) evs.
Proof.
  intros Hd Hr (comps & tail & Hcomps & Hne & Htail & ->).
  destruct (extract_member_below d r comps zip_file w Hd Hr Hcomps Hne)
    as (Hfile & Hdir & Hunder).
  destruct Htail as [-> | ->].
  - rewrite str_app_nil_r, Hfile. unfold fs_step.
    destruct (fs_write _ _ _) as [fs'|e].
    + eexists fs', [_]. split; [done|]. by repeat constructor.
    + exists w.1, []. rewrite app_nil_r. split; [by destruct w|constructor].
  - rewrite Hdir. destruct (fs_exists _ _).
    + exists w.1, []. rewrite app_nil_r. split; [by destruct w|constructor].
    + unfold fs_step. destruct (fs_mkdir _ _) as [fs'|e].
      * eexists fs', [_]. split; [done|]. by repeat constructor.
      * exists w.1, []. rewrite app_nil_r. split; [by destruct w|constructor].
Qed.

Lemma for_members_within d r zip_file members (w : FS * list startup_event) :
  Forall plain d → plain r → Forall (below r) members →
  ∃ fs' evs,
    (for_members FS members (extract (abs d) zip_file (r +:+ "/")) w).1
    = (fs', w.2 ++ evs)
    ∧ Forall (touches_within (STATIC_ASSETS_DIR (abs d))) evs.
Proof.
  intros Hd Hr Hmembers. revert w.
  induction Hmembers as [|m members Hm _ IH]; intros w.
  - exists w.1, []. rewrite app_nil_r. split; [by destruct w|constructor].
  - cbn [for_members]. rewrite script_bind_run.
    destruct (extract_member_within d r zip_file m w Hd Hr Hm)
      as (fs1 & evs1 & Hw1 & Hin1).
    destruct (extract (abs d) zip_file (r +:+ "/") m w) as [w1 [[]|e|n]];
      cbn [fst snd] in *; subst w1; [|by exists fs1, evs1..].
    destruct (IH (fs1, w.2 ++ evs1)) as (fs2 & evs2 & Hw2 & Hin2).
    exists fs2, (evs1 ++ evs2). rewrite Hw2. cbn [snd].
    split; [by rewrite app_assoc|by apply Forall_app].
Qed.

(** For an archive shaped as the hosting service makes it -- one top-level
    directory first, every other member below it --, whatever the file
    system does, every directory the download makes and every file it
    writes is within the static-assets directory. *)
Theorem download_writes_within_static_assets (d : list string) (url : string)
    (force : bool) (w : FS * list startup_event) (listing : list string)
    (zip_file : archive) (r : string) (members : list string) :
  Forall plain d → plain r →
  fs_listdir w.1 (STATIC_ASSETS_DIR (abs d)) = Returned listing →
  fetch (url +:+ "/archive/master.zip") = Returned zip_file →
  zip_file.*1 = (r +:+ "/") :: members → Forall (below r) members →
  ∃ fs' evs,
    (download (abs d) url force w).1 = (fs', w.2 ++ evs)
    ∧ Forall (touches_within (STATIC_ASSETS_DIR (abs d))) evs.
Proof.
  intros Hd Hr Hls Hfetch Hnames Hmembers.
  unfold download_static_assets, with_fs.
  rewrite script_bind_run, step_run, Hls.
  destruct (negb _).
  { exists w.1, []. rewrite app_nil_r. split; [by destruct w|constructor]. }
  rewrite script_bind_run, print_run. unfold try_except.
  rewrite script_bind_run, out_run, said_said, script_bind_run, step_run, Hfetch.
  rewrite script_bind_run, Hnames. cbn [getitem lookup list_lookup step drop].
  destruct (for_members_within d r zip_file members
              (said FS w ([print_ev (String (chr 10) "Downloading static assets..."
                                     +:+ String (chr 10) "")]
                          ++ [urlopen_ev (url +:+ "/archive/master.zip")]))
              Hd Hr Hmembers) as (fs' & evs & Hw' & Hin).
  destruct (for_members FS _ _ _) as [w' [[]|e|n]]; cbn [fst snd] in *; subst w'.
  - eexists fs', (_ :: _ :: evs). split; [cbn; by rewrite <- !app_assoc|].
    by repeat constructor.
  - rewrite script_bind_run, out_run. unfold said. cbn [fst snd].
    eexists fs', (_ :: _ :: evs ++ [_]). split; [by rewrite <- !app_assoc|].
    repeat constructor; try done. apply Forall_app. by repeat constructor.
  - eexists fs', (_ :: _ :: evs). split; [cbn; by rewrite <- !app_assoc|].
    by repeat constructor.
Qed.

End Extraction.

(** ** The further properties at concrete inputs *)

Lemma do_GET_redirects_to_last_entry_witness :
  serve None None (load_redirects [("/foo", "/old"); ("/x", "/y"); ("/foo", "/new")])
    (always request_raises) (request "/foo" [] "")
  = (record (request "/foo" [] "")
       [send_response_ev 302; send_header_ev "Location" "http://127.0.0.1:8000/new";
        end_headers_ev], Returned tt).
Proof.
  apply (do_GET_redirects_to_last_entry "/srv/law-html" no_file no_file
           (λ s, Some (percent_decode s)) percent_decode None None None None
           ("127.0.0.1", 8000%N) (always request_raises)
           [("/foo", "/old"); ("/x", "/y")] [] "/foo" "/new" (request "/foo" [] ""));
    [reflexivity| |discriminate|reflexivity|reflexivity].
  intros Hin. by apply elem_of_nil in Hin.
Defined.

Lemma translate_path_ignores_query_and_fragment_witness :
  translate_path "/srv/law-html" no_file no_file (λ s, Some (percent_decode s))
    percent_decode ("/laws/title-1.html" +:+ "?" +:+ "v=2#s3")
  = translate_path "/srv/law-html" no_file no_file (λ s, Some (percent_decode s))
      percent_decode "/laws/title-1.html"
  ∧ translate_path "/srv/law-html" no_file no_file (λ s, Some (percent_decode s))
      percent_decode "/laws/title-1.html"
    = Returned "/srv/law-html/laws/title-1.html".
Proof.
  split; [|reflexivity].
  destruct (translate_path_ignores_query_and_fragment "/srv/law-html" no_file no_file
              (λ s, Some (percent_decode s)) percent_decode "/laws/title-1.html"
              "v=2#s3" eq_refl) as [Hquery _].
  exact Hquery.
Defined.

Lemma do_GET_keeps_recognized_path_witness :
  serve None None ∅ (always request_raises) (request "/css/site.min.css" [] "")
  = (record (request "/css/site.min.css" [] "")
       [serve_file_ev "/srv/law-html/static-assets/css/site.min.css"], Returned tt).
Proof.
  apply (do_GET_keeps_recognized_path "/srv/law-html" no_file no_file
           (λ s, Some (percent_decode s)) percent_decode None None None None
           ("127.0.0.1", 8000%N) (always request_raises) ∅
           (request "/css/site.min.css" [] "")); [reflexivity..|].
  right. exists "/css/site.min", "css". split; [reflexivity|]. split; [reflexivity|].
  apply (bool_decide_unpack ("css" ∈ filetypes)). vm_compute. exact I.
Defined.

Lemma do_GET_extension_lost_behind_query_witness :
  serve None None ∅ (always request_raises) (request "/laws/title-1?v=2" [] "")
  = (record (with_path (request "/laws/title-1?v=2" [] "") "/laws/title-1?v=2.html")
       [serve_file_ev "/srv/law-html/static-assets/laws/title-1"], Returned tt).
Proof.
  apply (do_GET_extension_lost_behind_query "/srv/law-html" no_file no_file
           (λ s, Some (percent_decode s)) percent_decode None None None None
           ("127.0.0.1", 8000%N) (always request_raises) ∅
           (request "/laws/title-1?v=2" [] "") "/laws/title-1" "v=2");
    [reflexivity..|].
  by left.
Defined.

Lemma proxy_sends_one_response_witness :
  ∃ evs,
    (_proxy (always (responds {| code := 404; resp_headers := []; resp_body := "" |}))
       (Some HTTPConnection) (Some "search.example.org") "search" "GET" None
       (request "/_search?q=law" [("Host", "localhost:8000")] "")).1
    = record (request "/_search?q=law" [("Host", "localhost:8000")] "") evs
    ∧ count is_send_response evs = 1%nat.
Proof.
  destruct (proxy_sends_one_response
              (always (responds {| code := 404; resp_headers := []; resp_body := "" |}))
              (Some HTTPConnection) (Some "search.example.org") "search" "GET" None
              (request "/_search?q=law" [("Host", "localhost:8000")] ""))
    as (evs & Hrun & _ & _ & Hone).
  exists evs. split; [exact Hrun|]. apply Hone. reflexivity.
Defined.


Lemma do_POST_bad_content_length_witness :
  do_POST None None (always request_raises) (memory_of 65536)
    (request "/_api/authenticate" [] "a=b")
  = (request "/_api/authenticate" [] "a=b", Raised TypeError)
  ∧ do_POST None None (always request_raises) (memory_of 65536)
      (request "/_api/authenticate" [("Content-Length", "three")] "a=b")
    = (request "/_api/authenticate" [("Content-Length", "three")] "a=b",
       Raised ValueError)
  ∧ do_POST None None (always request_raises) (memory_of 65536)
      (request "/_api/authenticate" [("Content-Length", "-2")] "a=b")
    = (request "/_api/authenticate" [("Content-Length", "-2")] "a=b",
       Raised ValueError)
  ∧ do_POST None None (always request_raises) (memory_of 65536)
      (request "/_api/authenticate" [("Content-Length", "9223372036854775808")] "a=b")
    = (request "/_api/authenticate" [("Content-Length", "9223372036854775808")] "a=b",
       Raised OverflowError)
  ∧ do_POST None None (always request_raises) (memory_of 65536)
      (request "/_api/authenticate" [("Content-Length", "99999999999")] "a=b")
    = (request "/_api/authenticate" [("Content-Length", "99999999999")] "a=b",
       Raised MemoryError).
Proof.
  split; [|split; [|split; [|split]]].
  - apply (do_POST_bad_content_length None None (always request_raises) (memory_of 65536)
             (request "/_api/authenticate" [] "a=b")); reflexivity.
  - apply (do_POST_bad_content_length None None (always request_raises) (memory_of 65536)
             (request "/_api/authenticate" [("Content-Length", "three")] "a=b")
             eq_refl) with (v := "three"); reflexivity.
  - destruct (do_POST_bad_content_length None None (always request_raises)
                (memory_of 65536)
                (request "/_api/authenticate" [("Content-Length", "-2")] "a=b")
                eq_refl) as (_ & _ & Hint).
    destruct (Hint "-2" (-2) eq_refl eq_refl) as (Hneg & _).
    apply Hneg. rewrite maxsize_eq. lia.
  - destruct (do_POST_bad_content_length None None (always request_raises)
                (memory_of 65536)
                (request "/_api/authenticate"
                   [("Content-Length", "9223372036854775808")] "a=b")
                eq_refl) as (_ & _ & Hint).
    destruct (Hint "9223372036854775808" 9223372036854775808 eq_refl eq_refl)
      as (_ & Hbig & _).
    apply Hbig. right. rewrite maxsize_eq. unfold PyBytesObject_SIZE. lia.
  - destruct (do_POST_bad_content_length None None (always request_raises)
                (memory_of 65536)
                (request "/_api/authenticate" [("Content-Length", "99999999999")] "a=b")
                eq_refl) as (_ & _ & Hint).
    destruct (Hint "99999999999" 99999999999 eq_refl eq_refl) as (_ & _ & Hmem).
    apply Hmem; [rewrite maxsize_eq; unfold PyBytesObject_SIZE; lia|reflexivity].
Defined.

Lemma do_POST_leaves_rest_unread_witness :
  rfile (do_POST None None (always request_raises) (memory_of 65536)
           (request "/_api/authenticate" [("Content-Length", "3")] "a=bGET / HTTP/1.1")).1
  = "GET / HTTP/1.1".
Proof.
  destruct (do_POST_leaves_rest_unread None None (always request_raises) (memory_of 65536)
              (request "/_api/authenticate" [("Content-Length", "3")] "a=bGET / HTTP/1.1")
              "3" 3 eq_refl eq_refl eq_refl) as [Hsplit _];
    [rewrite maxsize_eq; unfold PyBytesObject_SIZE; lia|reflexivity|].
  apply (str_app_inj_head "a=b"). exact Hsplit.
Defined.

Lemma canonical_urls_required_witness :
  canonical_urls toy_fs
    (JObj {["meta" := JObj {["canonical-urls" :=
              JObj {["html" := JStr "https://law.example.org";
                     "static-assets" := JStr "https://github.example.org/assets"]}]}]})
    (∅, [])
  = ((∅, []), Done (JStr "https://law.example.org",
                    JStr "https://github.example.org/assets"))
  ∧ ∃ line1 line2,
      canonical_urls toy_fs (JObj {["version" := JStr "1"]}) (∅, [])
      = (said toy_fs (∅, []) [print_ev line1; print_ev line2], Exited 1).
Proof.
  split.
  - apply (canonical_urls_required toy_fs _ (∅, []))
      with (mm := {["canonical-urls" :=
                      JObj {["html" := JStr "https://law.example.org";
                             "static-assets" := JStr "https://github.example.org/assets"]}]})
           (cm := {["html" := JStr "https://law.example.org";
                    "static-assets" := JStr "https://github.example.org/assets"]});
      reflexivity.
  - destruct (canonical_urls_required toy_fs {["version" := JStr "1"]} (∅, []))
      as (_ & Hmeta & _).
    apply Hmeta. reflexivity.
Defined.

Lemma unset_proxy_url_answers_400_witness :
  ∃ Client host,
    get_http_client_info toy_fs toy_urlparse "portal" None (∅, [])
    = ((∅, []), Done (Client, host))
    ∧ ∀ method body,
        _proxy (always request_raises) Client host "portal" method body
          (request "/_portal/login" [("Host", "localhost:8000")] "")
        = (record (request "/_portal/login" [("Host", "localhost:8000")] "")
             (not_configured_response "portal"), Returned tt).
Proof.
  apply (unset_proxy_url_answers_400 toy_fs toy_urlparse (always request_raises)
           "portal" None (∅, [])
           (request "/_portal/login" [("Host", "localhost:8000")] "")).
  by left.
Defined.

Lemma get_http_client_info_by_scheme_witness :
  get_http_client_info toy_fs toy_urlparse "search"
    (Some "https://search.example.org") (∅, [])
  = (said toy_fs (∅, [])
       [print_ev ("PROXYING: " +:+ dquote +:+ "/_" +:+ "search" +:+ dquote
                  +:+ " to " +:+ "https://search.example.org")],
     Done (Some HTTPSConnection, Some "search.example.org"))
  ∧ get_http_client_info toy_fs toy_urlparse "search"
      (Some "ftp://files.example.org") (∅, [])
    = ((∅, []), Failed AttributeError).
Proof.
  split.
  - destruct (get_http_client_info_by_scheme toy_fs toy_urlparse "search"
                "https://search.example.org" "https" "search.example.org" (∅, []))
      as (Hcls & _); [discriminate|reflexivity|].
    destruct (Hcls HTTPSConnection eq_refl) as [Hrun _]. exact Hrun.
  - destruct (get_http_client_info_by_scheme toy_fs toy_urlparse "search"
                "ftp://files.example.org" "ftp" "files.example.org" (∅, []))
      as (_ & Hno & _); [discriminate|reflexivity|].
    apply Hno; [|discriminate]. by intros [].
Defined.

Lemma download_skipped_witness :
  download_static_assets toy_fs toy_exists toy_listdir toy_mkdir toy_write toy_fetch
    "/srv/law-html" "https://github.example.org/assets" false
    ({["/srv/law-html/static-assets/css" := None]}, [])
  = (({["/srv/law-html/static-assets/css" := None]}, []), Done tt).
Proof.
  apply (download_skipped toy_fs toy_exists toy_listdir toy_mkdir toy_write toy_fetch
           "/srv/law-html" "https://github.example.org/assets"
           ({["/srv/law-html/static-assets/css" := None]}, [])
           ["/srv/law-html/static-assets/css"]); [|discriminate].
  vm_compute. reflexivity.
Defined.

Lemma download_returns_or_exits_witness :
  download_static_assets toy_fs toy_exists toy_listdir toy_mkdir toy_write toy_fetch
    "/srv/law-html" "https://nowhere.example.org/assets" true (∅, [])
  = (said toy_fs (∅, [])
       [print_ev (String (chr 10) "Downloading static assets..." +:+ String (chr 10) "");
        urlopen_ev ("https://nowhere.example.org/assets" +:+ "/archive/master.zip");
        print_error_ev TransportError],
     Exited 1).
Proof.
  destruct (download_returns_or_exits toy_fs toy_exists toy_listdir toy_mkdir toy_write
              toy_fetch "/srv/law-html" "https://nowhere.example.org/assets" true
              (∅, []) []) as (_ & _ & Hfetch & _);
    [vm_compute; reflexivity|by right|].
  apply Hfetch. reflexivity.
Defined.

Lemma extract_member_strips_root_witness :
  extract_member toy_fs toy_exists toy_mkdir toy_write "/srv/law-html" toy_archive
    "assets-master/" "assets-master/css/site.css" (∅, [])
  = (({["/srv/law-html/static-assets/css/site.css" := Some "body{}"]},
      [write_file_ev "/srv/law-html/static-assets/css/site.css" "body{}"]), Done tt).
Proof.
  destruct (extract_member_strips_root toy_fs toy_exists toy_mkdir toy_write
              ["srv"; "law-html"] "assets-master" ["css"; "site.css"] toy_archive
              (∅, [])) as (Hfile & _).
  - repeat constructor; discriminate.
  - repeat constructor; discriminate.
  - repeat constructor; discriminate.
  - discriminate.
  - exact Hfile.
Defined.

Lemma download_writes_within_static_assets_witness :
  ∃ fs' evs,
    (download_static_assets toy_fs toy_exists toy_listdir toy_mkdir toy_write toy_fetch
       "/srv/law-html" "https://github.example.org/assets" false (∅, [])).1
    = (fs', [] ++ evs)
    ∧ Forall (touches_within "/srv/law-html/static-assets") evs.
Proof.
  apply (download_writes_within_static_assets toy_fs toy_exists toy_mkdir toy_write
           toy_listdir toy_fetch ["srv"; "law-html"] "https://github.example.org/assets"
           false (∅, []) [] toy_archive "assets-master"
           ["assets-master/css/"; "assets-master/css/site.css"]).
  - repeat constructor; discriminate.
  - repeat constructor; discriminate.
  - vm_compute. reflexivity.
  - reflexivity.
  - reflexivity.
  - constructor; [|constructor; [|constructor]].
    + exists ["css"], "/". repeat split; try discriminate; auto.
      repeat constructor; discriminate.
    + exists ["css"; "site.css"], "". repeat split; try discriminate; auto.
      repeat constructor; discriminate.
Defined.
